(** * binance_th_bot: the trading engine and the quantizer, embedded in Rocq

    Source files embedded here:
    - [src/bot_engine.py]  (class [BotEngine]): [log], [manage_open_positions],
      [check_open_position], [execute_trade], [set_trade_amount], the
      strategy functions and the per-symbol body of [run];
    - [src/binance_api.py] (class [BinanceAsyncClient]): [format_number],
      [load_exchange_info], [get_wallet] and [place_order].

    Modelling conventions.
    - Python [float] prices and amounts are embedded as exact rationals [Q];
      rounding of binary floating point is not modelled.  Division follows
      Python's [float] semantics: a zero divisor raises [ZeroDivisionError].
    - The SQLite table [trades] is a list of rows in insertion order; the
      dictionary [peak_prices] is a [gmap string Q].
    - Coroutines run sequentially (every call is awaited at once), so they
      are functions in a state-and-exception monad: a mutation made before a
      [raise] stays in the state, as in Python.
    - The exchange and the market feed are outside the program: the exchange
      is a section variable ([place_order]), the candles of a cycle are an
      argument of the loop body.
    - [decimal.Decimal], used by [format_number], is modelled with the
      arithmetic of its default context (module [Quantizer]). *)

From Stdlib Require Import QArith Qminmax Qround Qpower Lqa ZArith.
From Stdlib Require Import Ascii String List DecimalString.
From Stdlib Require PrimFloat.
From stdpp Require Import gmap strings.
Import ListNotations.

Local Open Scope Q_scope.

(** ** Python exceptions and the state-and-exception monad *)

Inductive exn : Type :=
| ZeroDivisionError
| KeyError (key : string)
| ValueError
| HTTPError (what : string)
| InvalidOperation
| DivisionByZero.

Inductive outcome (A : Type) : Type :=
| Return (a : A)
| Raise (e : exn).
Arguments Return {A} a.
Arguments Raise {A} e.

(** [x <= y] and [x < y] on numbers. *)
Definition Qleb (x y : Q) : bool := Qle_bool x y.
Definition Qltb (x y : Q) : bool := negb (Qle_bool y x).

(** [x / y] on Python floats: a zero divisor raises.  (A [numpy.float64]
    dividend, which is what the candle frame hands to [run], gives inf or
    nan with a warning instead; the functions below are annotated with
    [float] and are modelled with it.) *)
Definition pydiv (x y : Q) : outcome Q :=
  if Qeq_bool y 0 then Raise ZeroDivisionError else Return (x / y).

Module Engine.

(** ** Data model *)

Inductive side : Type := BUY | SELL.
Inductive status : Type := OPEN | CLOSED.

(** A row of table [trades] ([main.py], [init_db]).  The [id] of a row is its
    position in the list; the [timestamp] column, filled by the database
    clock, is left out. *)
Record trade : Type := mkTrade {
  t_symbol : string;
  t_order_id : string;
  t_side : side;
  t_price : Q;
  t_amount : Q;
  t_strategy : string;
  t_status : status
}.

(** The rows [execute_trade] writes carry a candle close as price and the
    filled quantity reported by the exchange as amount: a positive price
    and a non-negative amount. *)
Definition wf_trade (t : trade) : Prop := 0 < t_price t /\ 0 <= t_amount t.

Inductive level : Type := lv_info | lv_warning | lv_success | lv_error.

Inductive regime : Type := BULLISH | BEARISH | SIDEWAYS.

(** The messages passed to [log], with the values they interpolate. *)
Inductive message : Type :=
| MsgStarted
| MsgRegime (r : regime) (strategy_name : string)
| MsgSmartDca (symbol : string) (profit_pct : Q)
| MsgNewPeak (symbol : string) (price : Q)
| MsgTtpTriggered (symbol : string)
| MsgRejected (sd : side) (symbol : string) (notional_value : Q)
| MsgExecuted (sd : side) (symbol : string) (strategy_name : string)
              (price executed_qty : Q)
| MsgOrderError (symbol : string) (e : exn)
| MsgProcessingError (symbol : string) (e : exn).

Record event : Type := mkEvent { ev_type : level; ev_msg : message }.

(** What [place_order] sends to the exchange (always a MARKET order here). *)
Record order : Type := mkOrder {
  o_symbol : string;
  o_amount : Q;
  o_side : side
}.

(** The JSON answer of the exchange.  [executedQty] is absent ([None]),
    present but not a number ([Some None]: [float(...)] raises
    [ValueError]), or a number. *)
Record order_res : Type := mkOrderRes {
  orderId : option string;
  executedQty : option (option Q)
}.

(** The engine ([self]) together with the ledger and the two effects it
    has on the outside: the events broadcast by [log] and the orders sent
    to the exchange. *)
Record bot : Type := mkBot {
  trades : list trade;
  peak_prices : gmap string Q;
  trade_amount_usdt : Q;
  events : list event;
  orders : list order
}.

Definition M (A : Type) : Type := bot -> bot * outcome A.

Definition ret {A} (a : A) : M A := fun st => (st, Return a).

Definition bind {A B} (m : M A) (k : A -> M B) : M B :=
  fun st =>
    match m st with
    | (st', Return a) => k a st'
    | (st', Raise e) => (st', Raise e)
    end.

Definition lift {A} (o : outcome A) : M A := fun st => (st, o).

(** [try: body except Exception as e: handler(e)] *)
Definition try_except {A} (body : M A) (handler : exn -> M A) : M A :=
  fun st =>
    match body st with
    | (st', Return a) => (st', Return a)
    | (st', Raise e) => handler e st'
    end.

Notation "x <- m ;; k" := (bind m (fun x => k))
  (at level 100, m at next level, right associativity).
Notation "m ;;; k" := (bind m (fun _ => k))
  (at level 100, right associativity).

(** Money-management settings of [__init__]. *)
Definition dca_drop_pct : Q := 0.05.
Definition ttp_activation_pct : Q := 0.03.
Definition ttp_trail_pct : Q := 0.01.
Definition default_trade_amount_usdt : Q := 15.

Definition symbols : list string := ["BTCUSDT"; "ETHUSDT"]%string.

(** The engine as [__init__] leaves it, over a ledger [db]. *)
Definition init (db : list trade) : bot :=
  mkBot db ∅ default_trade_amount_usdt [] [].

(** ** State accessors *)

Definition set_trades (f : list trade -> list trade) (st : bot) : bot :=
  mkBot (f (trades st)) (peak_prices st) (trade_amount_usdt st)
        (events st) (orders st).

Definition set_peaks (f : gmap string Q -> gmap string Q) (st : bot) : bot :=
  mkBot (trades st) (f (peak_prices st)) (trade_amount_usdt st)
        (events st) (orders st).

Definition add_event (ev : event) (st : bot) : bot :=
  mkBot (trades st) (peak_prices st) (trade_amount_usdt st)
        (events st ++ [ev]) (orders st).

Definition add_order (o : order) (st : bot) : bot :=
  mkBot (trades st) (peak_prices st) (trade_amount_usdt st)
        (events st) (orders st ++ [o]).

(** [log]: [broadcast_log] of [main.py] catches every send error, so [log]
    does not raise. *)
Definition log (m : message) (lv : level) : M unit :=
  fun st => (add_event (mkEvent lv m) st, Return tt).

(** ** The ledger queries *)

Definition is_open (symbol : string) (t : trade) : bool :=
  String.eqb (t_symbol t) symbol &&
  match t_status t with OPEN => true | CLOSED => false end.

(** [SELECT * FROM trades WHERE symbol = ? AND status = 'OPEN'] *)
Definition open_trades (symbol : string) (db : list trade) : list trade :=
  List.filter (is_open symbol) db.

(** [UPDATE trades SET status = 'CLOSED' WHERE symbol = ? AND status = 'OPEN'] *)
Definition close_trade (symbol : string) (t : trade) : trade :=
  if is_open symbol t
  then mkTrade (t_symbol t) (t_order_id t) (t_side t) (t_price t)
               (t_amount t) (t_strategy t) CLOSED
  else t.

Definition close_all (symbol : string) (db : list trade) : list trade :=
  map (close_trade symbol) db.

(** [sum(f(t) for t in trades)]: Python's [sum] adds from the left,
    starting at [0]. *)
Definition sum_of (f : trade -> Q) (l : list trade) : Q :=
  fold_left (fun acc t => acc + f t) l 0.

Definition total_amount_of (l : list trade) : Q := sum_of t_amount l.
Definition total_cost_of (l : list trade) : Q :=
  sum_of (fun t => t_price t * t_amount t) l.

(** The invariant of the trade records in the words of the specification:
    the records of a symbol are all OPEN or all CLOSED. *)
Definition all_open_or_all_closed (symbol : string) (db : list trade) : Prop :=
  (forall t, In t db -> t_symbol t = symbol -> t_status t = OPEN)
  \/ (forall t, In t db -> t_symbol t = symbol -> t_status t = CLOSED).

(** [check_open_position] *)
Definition check_open_position (symbol : string) : M bool :=
  fun st =>
    (st, Return (Nat.ltb 0 (length (open_trades symbol (trades st))))).

Section WithExchange.

(** The exchange: its answer to an order may depend on the orders it has
    received before. *)
Variable place_order : list order -> order -> outcome order_res.

Definition call_place_order (symbol : string) (amount : Q) (sd : side)
  : M order_res :=
  fun st =>
    let o := mkOrder symbol amount sd in
    (add_order o st, place_order (orders st) o).

(** [float(order_res.get('executedQty', qty))] *)
Definition executed_qty_of (r : order_res) (qty : Q) : outcome Q :=
  match executedQty r with
  | None => Return qty
  | Some None => Raise ValueError
  | Some (Some q) => Return q
  end.

(** [str(order_res.get('orderId', 'TEST_ORDER_ID'))] *)
Definition order_id_of (r : order_res) : string :=
  match orderId r with
  | Some s => s
  | None => "TEST_ORDER_ID"%string
  end.

(** The quantity of [execute_trade], lines 179-182. *)
Definition trade_qty (sd : side) (price : Q) (close_all_amount : option Q)
  : M Q :=
  fun st =>
    match sd, close_all_amount with
    | SELL, Some a => (st, Return a)
    | _, _ => (st, pydiv (trade_amount_usdt st) price)
    end.

(** The database block of [execute_trade], lines 198-211: one connection,
    one statement, one commit. *)
Definition record_trade (symbol : string) (sd : side) (price : Q)
    (strategy_name order_id : string) (executed_qty : Q) : M unit :=
  fun st =>
    match sd with
    | BUY =>
        (set_trades
           (fun db => db ++ [mkTrade symbol order_id sd price executed_qty
                                     strategy_name OPEN]) st,
         Return tt)
    | SELL => (set_trades (close_all symbol) st, Return tt)
    end.

Definition execute_trade (symbol : string) (sd : side) (price : Q)
    (strategy_name : string) (close_all_amount : option Q) : M unit :=
  qty <- trade_qty sd price close_all_amount ;;
  let notional_value := qty * price in
  if Qltb notional_value 10 then
    log (MsgRejected sd symbol notional_value) lv_warning
  else
    try_except
      (order_res <- call_place_order symbol qty sd ;;
       let order_id := order_id_of order_res in
       executed_qty <- lift (executed_qty_of order_res qty) ;;
       record_trade symbol sd price strategy_name order_id executed_qty ;;;
       log (MsgExecuted sd symbol strategy_name price executed_qty) lv_success)
      (fun e => log (MsgOrderError symbol e) lv_error).

(** ** Money management: [manage_open_positions] *)

(** [self.peak_prices.pop(symbol, None)] *)
Definition pop_peak (symbol : string) : M unit :=
  fun st => (set_peaks (delete symbol) st, Return tt).

(** [self.peak_prices.get(symbol, default)] *)
Definition get_peak (symbol : string) (dflt : Q) : M Q :=
  fun st => (st, Return (default dflt (peak_prices st !! symbol))).

(** [self.peak_prices[symbol] = price] *)
Definition store_peak (symbol : string) (price : Q) : M unit :=
  fun st => (set_peaks (insert symbol price) st, Return tt).

(** [self.peak_prices[symbol]]: a missing key raises [KeyError]. *)
Definition peak_item (symbol : string) : M Q :=
  fun st =>
    match peak_prices st !! symbol with
    | Some p => (st, Return p)
    | None => (st, Raise (KeyError symbol))
    end.

(** Line 141: [total_cost / total_amount if total_amount > 0 else 0]. *)
Definition avg_price_of (l : list trade) : outcome Q :=
  if Qltb 0 (total_amount_of l)
  then pydiv (total_cost_of l) (total_amount_of l)
  else Return 0.

(** Line 143. *)
Definition profit_pct_of (current_price avg_price : Q) : outcome Q :=
  pydiv (current_price - avg_price) avg_price.

Definition manage_open_positions (symbol : string) (current_price : Q)
  : M unit :=
  fun st =>
    let rows := open_trades symbol (trades st) in
    match rows with
    | [] => pop_peak symbol st
    | _ :: _ =>
        (let total_amount := total_amount_of rows in
         avg_price <- lift (avg_price_of rows) ;;
         profit_pct <- lift (profit_pct_of current_price avg_price) ;;
         if Qleb profit_pct (- dca_drop_pct) then
           log (MsgSmartDca symbol profit_pct) lv_info ;;;
           execute_trade symbol BUY current_price "DCA" None
         else if Qleb ttp_activation_pct profit_pct then
           current_peak <- get_peak symbol avg_price ;;
           (if Qltb current_peak current_price then
              store_peak symbol current_price ;;;
              log (MsgNewPeak symbol current_price) lv_info
            else ret tt) ;;;
           peak <- peak_item symbol ;;
           drawdown_from_peak <- lift (pydiv (peak - current_price) peak) ;;
           if Qleb ttp_trail_pct drawdown_from_peak then
             log (MsgTtpTriggered symbol) lv_info ;;;
             execute_trade symbol SELL current_price "TTP" (Some total_amount)
           else ret tt
         else ret tt) st
    end.

(** The state after lines 154-157, the update of the stored peak. *)
Definition peak_updated (symbol : string) (avg_price current_price : Q)
    (st : bot) : bot :=
  if Qltb (default avg_price (peak_prices st !! symbol)) current_price
  then add_event (mkEvent lv_info (MsgNewPeak symbol current_price))
         (set_peaks (insert symbol current_price) st)
  else st.

(** The paths through [manage_open_positions], one constructor per way
    out of the function; [manage_open_positions_spec] below shows that
    every run takes one of them. *)
Inductive pm_path (st : bot) (symbol : string) (c : Q)
  : bot * outcome unit -> Prop :=
| pm_no_position :
    open_trades symbol (trades st) = [] ->
    pm_path st symbol c (set_peaks (delete symbol) st, Return tt)
| pm_avg_raises e :
    open_trades symbol (trades st) <> [] ->
    avg_price_of (open_trades symbol (trades st)) = Raise e ->
    pm_path st symbol c (st, Raise e)
| pm_profit_raises avg e :
    open_trades symbol (trades st) <> [] ->
    avg_price_of (open_trades symbol (trades st)) = Return avg ->
    profit_pct_of c avg = Raise e ->
    pm_path st symbol c (st, Raise e)
| pm_dca avg profit :
    open_trades symbol (trades st) <> [] ->
    avg_price_of (open_trades symbol (trades st)) = Return avg ->
    profit_pct_of c avg = Return profit ->
    profit <= - dca_drop_pct ->
    pm_path st symbol c
      (execute_trade symbol BUY c "DCA" None
         (add_event (mkEvent lv_info (MsgSmartDca symbol profit)) st))
| pm_idle avg profit :
    open_trades symbol (trades st) <> [] ->
    avg_price_of (open_trades symbol (trades st)) = Return avg ->
    profit_pct_of c avg = Return profit ->
    - dca_drop_pct < profit ->
    profit < ttp_activation_pct ->
    pm_path st symbol c (st, Return tt)
| pm_peak_missing avg profit :
    open_trades symbol (trades st) <> [] ->
    avg_price_of (open_trades symbol (trades st)) = Return avg ->
    profit_pct_of c avg = Return profit ->
    - dca_drop_pct < profit ->
    ttp_activation_pct <= profit ->
    peak_prices (peak_updated symbol avg c st) !! symbol = None ->
    pm_path st symbol c (peak_updated symbol avg c st, Raise (KeyError symbol))
| pm_drawdown_raises avg profit peak e :
    open_trades symbol (trades st) <> [] ->
    avg_price_of (open_trades symbol (trades st)) = Return avg ->
    profit_pct_of c avg = Return profit ->
    - dca_drop_pct < profit ->
    ttp_activation_pct <= profit ->
    peak_prices (peak_updated symbol avg c st) !! symbol = Some peak ->
    pydiv (peak - c) peak = Raise e ->
    pm_path st symbol c (peak_updated symbol avg c st, Raise e)
| pm_trailing avg profit peak drawdown :
    open_trades symbol (trades st) <> [] ->
    avg_price_of (open_trades symbol (trades st)) = Return avg ->
    profit_pct_of c avg = Return profit ->
    - dca_drop_pct < profit ->
    ttp_activation_pct <= profit ->
    peak_prices (peak_updated symbol avg c st) !! symbol = Some peak ->
    pydiv (peak - c) peak = Return drawdown ->
    drawdown < ttp_trail_pct ->
    pm_path st symbol c (peak_updated symbol avg c st, Return tt)
| pm_take_profit avg profit peak drawdown :
    open_trades symbol (trades st) <> [] ->
    avg_price_of (open_trades symbol (trades st)) = Return avg ->
    profit_pct_of c avg = Return profit ->
    - dca_drop_pct < profit ->
    ttp_activation_pct <= profit ->
    peak_prices (peak_updated symbol avg c st) !! symbol = Some peak ->
    pydiv (peak - c) peak = Return drawdown ->
    ttp_trail_pct <= drawdown ->
    pm_path st symbol c
      (execute_trade symbol SELL c "TTP"
         (Some (total_amount_of (open_trades symbol (trades st))))
         (add_event (mkEvent lv_info (MsgTtpTriggered symbol))
            (peak_updated symbol avg c st))).

(** ** Strategies and the per-symbol body of [run] *)

Inductive signal : Type := SigBUY | SigSELL | SigHOLD.

(** What one cycle reads from the candle frame of a symbol: the last close
    and the last indicator values (the indicator library is outside the
    program). *)
Record frame : Type := mkFrame {
  f_close : Q;
  f_adx14 : Q;
  f_ema50 : Q;
  f_rsi14 : Q;
  f_rsi7 : Q;
  f_macd : Q;
  f_macd_signal : Q;
  f_macd_prev : Q;
  f_macd_signal_prev : Q
}.

Inductive strategy : Type :=
| strategy_1_trend_reversal
| strategy_2_rsi_scalping
| strategy_3_macd_cross.

Definition strategy_name_of (s : strategy) : string :=
  match s with
  | strategy_1_trend_reversal => "strategy_1_trend_reversal"
  | strategy_2_rsi_scalping => "strategy_2_rsi_scalping"
  | strategy_3_macd_cross => "strategy_3_macd_cross"
  end.

Definition run_strategy (s : strategy) (df : frame) : signal :=
  match s with
  | strategy_1_trend_reversal =>
      if Qltb (f_rsi14 df) 30 then SigBUY
      else if Qltb 70 (f_rsi14 df) then SigSELL
      else SigHOLD
  | strategy_2_rsi_scalping =>
      if Qltb (f_rsi7 df) 25 then SigBUY
      else if Qltb 75 (f_rsi7 df) then SigSELL
      else SigHOLD
  | strategy_3_macd_cross =>
      if Qltb (f_macd_signal df) (f_macd df)
         && Qleb (f_macd_prev df) (f_macd_signal_prev df)
      then SigBUY
      else SigHOLD
  end.

Definition strategy_4_auto_ai (df : frame) : M (regime * strategy) :=
  let choice :=
    if Qltb 25 (f_adx14 df) then
      if Qltb (f_ema50 df) (f_close df)
      then (BULLISH, strategy_3_macd_cross)
      else (BEARISH, strategy_1_trend_reversal)
    else (SIDEWAYS, strategy_2_rsi_scalping) in
  log (MsgRegime (fst choice) (strategy_name_of (snd choice))) lv_info ;;;
  ret choice.

(** Steps 3 and 4 of the loop body, lines 51-59. *)
Definition manage_then_enter (symbol : string) (df : frame)
    (active_strategy : strategy) : M unit :=
  let current_price := f_close df in
  manage_open_positions symbol current_price ;;;
  has_open_position <- check_open_position symbol ;;
  if has_open_position then ret tt
  else
    match run_strategy active_strategy df with
    | SigBUY => execute_trade symbol BUY current_price "Strategy_Auto" None
    | _ => ret tt
    end.

(** The body of [for symbol in self.symbols], lines 42-62.  [candles] is
    what [get_candles] gives in this cycle: a frame, or an exception. *)
Definition process_symbol (symbol : string) (candles : outcome frame)
  : M unit :=
  try_except
    (df <- lift candles ;;
     choice <- strategy_4_auto_ai df ;;
     manage_then_enter symbol df (snd choice))
    (fun e => log (MsgProcessingError symbol e) lv_error).

(** One pass of [for symbol in self.symbols]. *)
Fixpoint cycle (symbols : list string) (feed : string -> outcome frame)
  : M unit :=
  match symbols with
  | [] => ret tt
  | symbol :: rest => process_symbol symbol (feed symbol) ;;; cycle rest feed
  end.

(** The ledger after the database block of a filled order. *)
Definition ledger_after (symbol : string) (sd : side) (price : Q)
    (strategy_name order_id : string) (executed_qty : Q) (db : list trade)
  : list trade :=
  match sd with
  | BUY => db ++ [mkTrade symbol order_id sd price executed_qty
                          strategy_name OPEN]
  | SELL => close_all symbol db
  end.

(** The paths through [execute_trade]; [execute_trade_spec] below shows
    that every run takes one of them. *)
Inductive et_path (st : bot) (symbol : string) (sd : side) (price : Q)
    (strategy_name : string) (close_all_amount : option Q)
  : bot * outcome unit -> Prop :=
| et_qty_raises e :
    trade_qty sd price close_all_amount st = (st, Raise e) ->
    et_path st symbol sd price strategy_name close_all_amount (st, Raise e)
| et_rejected qty :
    trade_qty sd price close_all_amount st = (st, Return qty) ->
    qty * price < 10 ->
    et_path st symbol sd price strategy_name close_all_amount
      (add_event (mkEvent lv_warning (MsgRejected sd symbol (qty * price))) st,
       Return tt)
| et_gateway_raises qty e :
    trade_qty sd price close_all_amount st = (st, Return qty) ->
    10 <= qty * price ->
    place_order (orders st) (mkOrder symbol qty sd) = Raise e ->
    et_path st symbol sd price strategy_name close_all_amount
      (add_event (mkEvent lv_error (MsgOrderError symbol e))
         (add_order (mkOrder symbol qty sd) st),
       Return tt)
| et_answer_unreadable qty r e :
    trade_qty sd price close_all_amount st = (st, Return qty) ->
    10 <= qty * price ->
    place_order (orders st) (mkOrder symbol qty sd) = Return r ->
    executed_qty_of r qty = Raise e ->
    et_path st symbol sd price strategy_name close_all_amount
      (add_event (mkEvent lv_error (MsgOrderError symbol e))
         (add_order (mkOrder symbol qty sd) st),
       Return tt)
| et_filled qty r executed_qty :
    trade_qty sd price close_all_amount st = (st, Return qty) ->
    10 <= qty * price ->
    place_order (orders st) (mkOrder symbol qty sd) = Return r ->
    executed_qty_of r qty = Return executed_qty ->
    et_path st symbol sd price strategy_name close_all_amount
      (add_event
         (mkEvent lv_success
            (MsgExecuted sd symbol strategy_name price executed_qty))
         (set_trades
            (ledger_after symbol sd price strategy_name (order_id_of r)
               executed_qty)
            (add_order (mkOrder symbol qty sd) st)),
       Return tt).

(** [run] over the market feeds of successive cycles (the loop itself runs
    until [stop] is called; the pause between cycles is not modelled). *)
Fixpoint run_cycles (feeds : list (string -> outcome frame)) : M unit :=
  match feeds with
  | [] => ret tt
  | feed :: rest => cycle symbols feed ;;; run_cycles rest
  end.

Definition run (feeds : list (string -> outcome frame)) : M unit :=
  log MsgStarted lv_info ;;; run_cycles feeds.

(** [set_trade_amount]: the flag of the returned pair. *)
Definition set_trade_amount (new_amount : Q) : M bool :=
  fun st =>
    if Qltb new_amount 10 then (st, Return false)
    else (mkBot (trades st) (peak_prices st) new_amount
                (events st) (orders st), Return true).

(** ** The states the engine can be in

    The engine starts with no stored peak over whatever well-formed ledger
    the database holds; from there it moves by steps of the position
    manager, by passes of the loop body (on candles whose last close is
    positive, or on a failed fetch) and by [set_trade_amount]. *)
Inductive reachable : bot -> Prop :=
| reach_init db :
    Forall wf_trade db -> reachable (init db)
| reach_manage st symbol c :
    reachable st -> 0 < c ->
    reachable (fst (manage_open_positions symbol c st))
| reach_process st symbol candles :
    reachable st ->
    (forall df, candles = Return df -> 0 < f_close df) ->
    reachable (fst (process_symbol symbol candles st))
| reach_set_trade_amount st new_amount :
    reachable st -> reachable (fst (set_trade_amount new_amount st)).

End WithExchange.

(** The stored peak of a symbol bounds the cost of its open position:
    [total_cost <= peak * total_amount], that is [avg_price <= peak]. *)
Definition peak_bounds_cost (st : bot) : Prop :=
  forall symbol peak,
    peak_prices st !! symbol = Some peak ->
    0 < peak
    /\ total_cost_of (open_trades symbol (trades st))
       <= peak * total_amount_of (open_trades symbol (trades st)).

Definition engine_invariant (st : bot) : Prop :=
  Forall wf_trade (trades st)
  /\ 0 <= trade_amount_usdt st
  /\ peak_bounds_cost st.


(** ** What a step may change

    The rows of one symbol, OPEN or CLOSED. *)
Definition rows_of (symbol : string) (db : list trade) : list trade :=
  List.filter (fun t => String.eqb (t_symbol t) symbol) db.

(** A step for [symbol] leaves the amount per trade alone, and the stored
    peaks and the rows of every other symbol; it only adds events, and it
    only adds orders for [symbol]. *)
Definition touches_only (symbol : string) (st st' : bot) : Prop :=
  trade_amount_usdt st' = trade_amount_usdt st
  /\ (forall other, other <> symbol ->
        peak_prices st' !! other = peak_prices st !! other)
  /\ (forall other, other <> symbol ->
        rows_of other (trades st') = rows_of other (trades st))
  /\ (exists new_events, events st' = events st ++ new_events)
  /\ (exists new_orders,
        orders st' = orders st ++ new_orders
        /\ Forall (fun o => o_symbol o = symbol) new_orders).

(** A row as it is, or the same row CLOSED. *)
Definition row_advances (t t' : trade) : Prop :=
  t' = t
  \/ t' = mkTrade (t_symbol t) (t_order_id t) (t_side t) (t_price t)
                  (t_amount t) (t_strategy t) CLOSED.

(** The ledger [db'] continues the ledger [db]: the rows of [db] are all
    there, in place, each as it was or CLOSED, and a row that was CLOSED is
    as it was; the rows after them are new BUY rows. *)
Definition ledger_extends (db db' : list trade) : Prop :=
  exists kept added,
    db' = kept ++ added
    /\ Forall2 row_advances db kept
    /\ Forall (fun t => t_side t = BUY) added.

End Engine.

(** * The quantizer: [BinanceAsyncClient.format_number] *)

Module Quantizer.

Local Open Scope Z_scope.

(** ** [decimal.Decimal]

    A finite [Decimal] is a sign, a coefficient and an exponent
    ([_sign], [_int], [_exp]); it stands for
    [(-1)^sign * coefficient * 10^exponent].  NaN and the infinities are
    left out: [value] is a finite number.  The arithmetic below is that of
    the default context of module [decimal]: precision 28, rounding
    ROUND_HALF_EVEN, the traps InvalidOperation and DivisionByZero raising;
    the exponent limits of the context (beyond 10^±999999) are not
    modelled. *)
Record Decimal : Type := mkDec {
  d_neg : bool;
  d_int : N;
  d_exp : Z
}.

Definition prec : Z := 28.

(** The number a [Decimal] stands for. *)
Definition value (d : Decimal) : Q :=
  ((if d_neg d then -1 else 1) * inject_Z (Z.of_N (d_int d))
   * 10 ^ d_exp d)%Q.

(** How many digits a coefficient has beyond the precision. *)
Fixpoint excess_digits (fuel : nat) (c : Z) : Z :=
  match fuel with
  | O => 0
  | S fuel' =>
      if c <? 10 ^ prec then 0 else 1 + excess_digits fuel' (c / 10)
  end.

(** [Decimal._fix]: rounding of a result to the precision of the context. *)
Definition dec_fix (d : Decimal) : Decimal :=
  let c := Z.of_N (d_int d) in
  if c <? 10 ^ prec then d
  else
    let k := excess_digits (S (Z.to_nat (Z.log2 c))) c in
    let q := c / 10 ^ k in
    let r := c mod 10 ^ k in
    let q' :=
      if (10 ^ k <? 2 * r) || ((2 * r =? 10 ^ k) && Z.odd q)
      then q + 1 else q in
    if q' <? 10 ^ prec
    then mkDec (d_neg d) (Z.to_N q') (d_exp d + k)
    else mkDec (d_neg d) (Z.to_N (q' / 10)) (d_exp d + k + 1).

Fixpoint strip_zeros (fuel : nat) (c : Z) (e : Z) : Z * Z :=
  match fuel with
  | O => (c, e)
  | S fuel' =>
      if c mod 10 =? 0 then strip_zeros fuel' (c / 10) (e + 1) else (c, e)
  end.

(** [Decimal.normalize]: round, then drop the trailing zeros of the
    coefficient; a zero becomes [0]. *)
Definition normalize (d : Decimal) : Decimal :=
  let d := dec_fix d in
  let c := Z.of_N (d_int d) in
  if c =? 0 then mkDec (d_neg d) 0 0
  else
    let ce := strip_zeros (S (Z.to_nat (Z.log2 c))) c (d_exp d) in
    mkDec (d_neg d) (Z.to_N (fst ce)) (snd ce).

(** [a // b] on [Decimal]: the integer part of the quotient, truncated
    towards zero, with exponent 0. *)
Definition floordiv (a b : Decimal) : outcome Decimal :=
  let ca := Z.of_N (d_int a) in
  let cb := Z.of_N (d_int b) in
  if cb =? 0 then
    if ca =? 0 then Raise InvalidOperation else Raise DivisionByZero
  else
    let n1 := if d_exp b <=? d_exp a
              then ca * 10 ^ (d_exp a - d_exp b) else ca in
    let n2 := if d_exp b <=? d_exp a
              then cb else cb * 10 ^ (d_exp b - d_exp a) in
    let q := n1 / n2 in
    if q <? 10 ^ prec
    then Return (mkDec (xorb (d_neg a) (d_neg b)) (Z.to_N q) 0)
    else Raise InvalidOperation.

(** [a * b] on [Decimal]. *)
Definition mul (a b : Decimal) : Decimal :=
  dec_fix (mkDec (xorb (d_neg a) (d_neg b)) (d_int a * d_int b)
             (d_exp a + d_exp b)).

(** ['0' * n] *)
Definition zeros (n : Z) : string :=
  string_of_list_ascii (repeat "0"%char (Z.to_nat n)).

(** [f"{d:f}"]: [Decimal.__format__] with presentation type [f] and no
    precision. *)
Definition format_f (d : Decimal) : string :=
  let d := if (Z.of_N (d_int d) =? 0) && (0 <? d_exp d)
           then mkDec (d_neg d) 0 0 else d in
  let digits := NilZero.string_of_uint (N.to_uint (d_int d)) in
  let len := Z.of_nat (String.length digits) in
  let dotplace := d_exp d + len in
  let parts :=
    if dotplace <? 0 then
      ("0"%string, String.append (zeros (- dotplace)) digits)
    else if len <? dotplace then
      (String.append digits (zeros (dotplace - len)), ""%string)
    else
      (let i := substring 0 (Z.to_nat dotplace) digits in
       if String.eqb i "" then "0"%string else i,
       substring (Z.to_nat dotplace) (Z.to_nat (len - dotplace)) digits) in
  String.append (if d_neg d then "-"%string else ""%string)
    (String.append (fst parts)
       (if String.eqb (snd parts) "" then ""%string
        else String.append "." (snd parts))).

(** ** The filters and [format_number] *)

(** One entry of [symbol_filters[symbol]].  A field holds the [Decimal]
    that [Decimal(step_size_str)] builds from the text sent by the
    exchange; [None] is a key that is absent or whose text is empty. *)
Record filter : Type := mkFilter {
  stepSize : option Decimal;
  tickSize : option Decimal
}.

(** [filters.get('stepSize') or filters.get('tickSize')] *)
Definition step_of (f : filter) : option Decimal :=
  match stepSize f with
  | Some s => Some s
  | None => tickSize f
  end.

(** The step size [format_number] finds for a symbol and a filter type,
    if any. *)
Definition known_step (symbol_filters : gmap string (gmap string filter))
    (symbol filter_type : string) : option Decimal :=
  match symbol_filters !! symbol with
  | None => None
  | Some by_type =>
      step_of (default (mkFilter None None) (by_type !! filter_type))
  end.

(** The characters of a number written without exponent: digits, the
    point and the sign. *)
Definition plain_char (c : ascii) : bool :=
  existsb (Ascii.eqb c) (list_ascii_of_string "0123456789.-").

Fixpoint all_chars (p : ascii -> bool) (s : string) : bool :=
  match s with
  | EmptyString => true
  | String c s' => p c && all_chars p s'
  end.

(** [format_number].  [val_dec] is [Decimal(str(value))], the decimal
    expansion that Python prints for the float [value]. *)
Definition format_number (symbol_filters : gmap string (gmap string filter))
    (symbol : string) (val_dec : Decimal) (filter_type : string)
  : outcome string :=
  match symbol_filters !! symbol with
  | None => Return (format_f val_dec)
  | Some by_type =>
      let filters := default (mkFilter None None) (by_type !! filter_type) in
      match step_of filters with
      | None => Return (format_f val_dec)
      | Some step =>
          let step_dec := normalize step in
          match floordiv val_dec step_dec with
          | Raise e => Raise e
          | Return q =>
              let quantized_val := mul q step_dec in
              Return (format_f quantized_val)
          end
      end
  end.

End Quantizer.

(** * The client: [BinanceAsyncClient]

    [load_exchange_info], [get_wallet] and [place_order] of
    [src/binance_api.py].  The HTTP exchange of [_request] is not part of
    the model: a function that calls it is given the outcome of the call
    (the decoded JSON body, or the exception [_request] raised), and a
    function whose requests matter records each call it makes. *)

Module Client.
Import Quantizer.

(** ** [load_exchange_info] *)

(** One element of [data['symbols']]: its ['symbol'] and its ['filters'],
    each filter paired with its ['filterType'], in the order sent. *)
Record symbol_data : Type := mkSymbolData {
  sd_symbol : string;
  sd_filters : list (string * filter)
}.

(** [{filter['filterType']: filter for filter in filters}] *)
Definition by_filter_type (filters : list (string * filter))
  : gmap string filter :=
  fold_left (fun d f => <[fst f := snd f]> d) filters ∅.

(** [load_exchange_info]: the dictionary [symbol_filters] after the call
    and what the call returns.  [response] is the outcome of the request
    for [/api/v3/exchangeInfo], reduced to [data['symbols']]. *)
Definition load_exchange_info (response : outcome (list symbol_data))
    (symbol_filters : gmap string (gmap string filter))
  : gmap string (gmap string filter) * outcome unit :=
  match response with
  | Raise e => (symbol_filters, Raise e)
  | Return data =>
      (fold_left
         (fun sf symbol_data =>
            <[sd_symbol symbol_data :=
                by_filter_type (sd_filters symbol_data)]> sf)
         data symbol_filters,
       Return tt)
  end.

(** ** [get_wallet] *)

(** One element of [data['balances']]: its ['asset'] and the number that
    [float(b['free'])] reads; [None] is a text that [float] rejects. *)
Record balance : Type := mkBalance {
  asset : string;
  free : option Q
}.

(** The loop of [get_wallet] over the balances, from the dictionary built
    so far. *)
Fixpoint collect_balances (data : list balance) (balances : gmap string Q)
  : outcome (gmap string Q) :=
  match data with
  | [] => Return balances
  | b :: rest =>
      match free b with
      | None => Raise ValueError
      | Some free_amt =>
          collect_balances rest
            (if Qltb 0 free_amt then <[asset b := free_amt]> balances
             else balances)
      end
  end.

(** [get_wallet].  [response] is the outcome of the request for
    [/api/v3/account], reduced to [data['balances']]. *)
Definition get_wallet (response : outcome (list balance))
  : outcome (gmap string Q) :=
  match response with
  | Raise e => Raise e
  | Return data => collect_balances data ∅
  end.

(** ** [place_order] *)

(** [str.upper] on ASCII text, which is what sides and order types are. *)
Definition upper_char (c : ascii) : ascii :=
  let n := nat_of_ascii c in
  if (97 <=? n)%nat && (n <=? 122)%nat then ascii_of_nat (n - 32) else c.

Fixpoint upper (s : string) : string :=
  match s with
  | EmptyString => EmptyString
  | String c s' => String (upper_char c) (upper s')
  end.

(** A call of [_request], with the parameters as the caller passed them
    (before [_request] adds the timestamp and the signature). *)
Record call : Type := mkCall {
  c_method : string;
  c_endpoint : string;
  c_params : list (string * string);
  c_signed : bool
}.

Section WithServer.

Context {response : Type}.

(** What the server answers to a call, given the calls made before. *)
Variable server : list call -> call -> outcome response.

(** [_request], seen from its caller: the call is recorded and the answer
    (or the exception) comes back. *)
Definition request (method endpoint : string)
    (params : list (string * string)) (signed : bool)
  : list call -> list call * outcome response :=
  fun sent =>
    let c := mkCall method endpoint params signed in
    (sent ++ [c], server sent c).

(** [place_order].  [amount] and [rate] are [Decimal(str(amount))] and
    [Decimal(str(rate))], as [format_number] takes them. *)
Definition place_order
    (symbol_filters : gmap string (gmap string filter))
    (symbol : string) (amount rate : Decimal) (side order_type : string)
  : list call -> list call * outcome response :=
  fun sent =>
    match format_number symbol_filters symbol amount "LOT_SIZE" with
    | Raise e => (sent, Raise e)
    | Return formatted_qty =>
        let params :=
          [("symbol"%string, symbol);
           ("side"%string, upper side);
           ("type"%string, upper order_type);
           ("quantity"%string, formatted_qty)] in
        if String.eqb (upper order_type) "LIMIT" then
          match format_number symbol_filters symbol rate "PRICE_FILTER" with
          | Raise e => (sent, Raise e)
          | Return formatted_price =>
              request "POST" "/api/v3/order"
                (params ++ [("price"%string, formatted_price);
                            ("timeInForce"%string, "GTC"%string)])
                true sent
          end
        else request "POST" "/api/v3/order" params true sent
    end.

End WithServer.

(** ** Notions used to state the properties *)

(** No balance of [data] gives asset [a] a positive free amount. *)
Definition no_positive (a : string) (data : list balance) : Prop :=
  forall b free_amt,
    In b data -> asset b = a -> free b = Some free_amt -> ~ 0 < free_amt.

(** [v] is the last positive free amount that [data] lists for [a]. *)
Definition last_positive (a : string) (v : Q) (data : list balance) : Prop :=
  exists before after,
    data = before ++ mkBalance a (Some v) :: after
    /\ 0 < v
    /\ no_positive a after.

End Client.

(** * Scenarios

    The exchanges, ledgers and market frames used by the examples. *)

Module Scenario.
Import Engine.

(** An exchange that fills every order in full and omits [executedQty]. *)
Definition filling_exchange : list order -> order -> outcome order_res :=
  fun _ _ => Return (mkOrderRes (Some "4211"%string) None).

(** An exchange that refuses every order. *)
Definition failing_exchange : list order -> order -> outcome order_res :=
  fun _ _ => Raise (HTTPError "400 Bad Request").

(** An exchange that fills a tenth of a coin of every order and sends no
    order id. *)
Definition partial_fill_exchange : list order -> order -> outcome order_res :=
  fun _ _ => Return (mkOrderRes None (Some (Some 0.1))).

(** An exchange whose answer carries an [executedQty] that is not a
    number. *)
Definition garbled_exchange : list order -> order -> outcome order_res :=
  fun _ _ => Return (mkOrderRes (Some "4212"%string) (Some None)).

(** One OPEN lot of [amount] coins bought at [price]. *)
Definition lot (symbol : string) (price amount : Q) : trade :=
  mkTrade symbol "4211" BUY price amount "Strategy_Auto" OPEN.

(** A frame with last close [close] on which the selected strategy
    (RSI-7 scalping, as ADX is 10) signals [rsi7 < 25 -> BUY]. *)
Definition frame_at (close rsi7 : Q) : frame :=
  mkFrame close 10 close 50 rsi7 0 0 0 0.

(** A position of one coin bought at 100 whose trailing stop has seen the
    price 106. *)
Definition trailing_state : bot :=
  mkBot [lot "BTCUSDT" 100 1] {[ "BTCUSDT"%string := 106 ]}
        default_trade_amount_usdt [] [].

(** The three OPEN records of the weighted-average example. *)
Definition three_lots : list trade :=
  [lot "BTCUSDT" 100 1; lot "BTCUSDT" 90 1; lot "BTCUSDT" 80 2].

(** A position whose only BUY was reported by the exchange with
    [executedQty] 0. *)
Definition unfilled_lot : list trade := [lot "BTCUSDT" 100 0].

(** A market feed: BTCUSDT closes at [close] with RSI-7 [rsi7]; ETHUSDT
    is quiet. *)
Definition feed_at (close rsi7 : Q) : string -> outcome frame :=
  fun symbol =>
    if String.eqb symbol "BTCUSDT" then Return (frame_at close rsi7)
    else Return (frame_at 2000 50).

(** Four cycles: an entry at 100, a rise to 106, a fall to 104.8 and a
    second entry at 100. *)
Definition two_positions : list (string -> outcome frame) :=
  [feed_at 100 20; feed_at 106 50; feed_at 104.8 50; feed_at 100 20].

(** The LOT_SIZE filter of the quantization example: [stepSize] is sent
    as ["0.00100000"]. *)
Definition lot_size_filters : gmap string (gmap string Quantizer.filter) :=
  {[ "BTCUSDT"%string :=
       {[ "LOT_SIZE"%string :=
            Quantizer.mkFilter (Some (Quantizer.mkDec false 100000 (-8)))
                               None ]} ]}.

(** A PRICE_FILTER whose [tickSize] is sent as ["0.00000000"], the way
    the exchange says that the rule is switched off. *)
Definition zero_tick_filters : gmap string (gmap string Quantizer.filter) :=
  {[ "BTCUSDT"%string :=
       {[ "PRICE_FILTER"%string :=
            Quantizer.mkFilter None (Some (Quantizer.mkDec false 0 (-8))) ]} ]}.

(** An exchange listing that names BTCUSDT twice, the second time with two
    LOT_SIZE filters and no PRICE_FILTER. *)
Definition relisted_symbols : list Client.symbol_data :=
  [Client.mkSymbolData "BTCUSDT"
     [("PRICE_FILTER"%string,
       Quantizer.mkFilter None (Some (Quantizer.mkDec false 1 (-2))))];
   Client.mkSymbolData "BTCUSDT"
     [("LOT_SIZE"%string,
       Quantizer.mkFilter (Some (Quantizer.mkDec false 1 (-3))) None);
      ("LOT_SIZE"%string,
       Quantizer.mkFilter (Some (Quantizer.mkDec false 100000 (-8))) None)]].

(** An account with an empty BTC balance and USDT listed twice. *)
Definition account_balances : list Client.balance :=
  [Client.mkBalance "USDT" (Some 250);
   Client.mkBalance "BTC" (Some 0);
   Client.mkBalance "USDT" (Some 0)].

End Scenario.

(** * Facts about the numbers *)

Local Open Scope Q_scope.

Lemma Qleb_true (x y : Q) : Qleb x y = true <-> x <= y.
Proof. unfold Qleb. apply Qle_bool_iff. Qed.

Lemma Qleb_false (x y : Q) : Qleb x y = false <-> y < x.
Proof.
  unfold Qleb. split; intros H.
  - apply Qnot_le_lt. intros Hle. apply Qle_bool_iff in Hle. congruence.
  - destruct (Qle_bool x y) eqn:E; [|reflexivity].
    apply Qle_bool_iff in E. exfalso. exact (Qlt_not_le _ _ H E).
Qed.

Lemma Qltb_true (x y : Q) : Qltb x y = true <-> x < y.
Proof.
  unfold Qltb. rewrite negb_true_iff. apply (Qleb_false y x).
Qed.

Lemma Qltb_false (x y : Q) : Qltb x y = false <-> y <= x.
Proof.
  unfold Qltb. rewrite negb_false_iff. apply (Qleb_true y x).
Qed.

Lemma pydiv_nonzero (x y : Q) : ~ y == 0 -> pydiv x y = Return (x / y).
Proof.
  intros H. unfold pydiv. destruct (Qeq_bool y 0) eqn:E; [|reflexivity].
  apply Qeq_bool_iff in E. contradiction.
Qed.


Lemma pydiv_inv (x y z : Q) : pydiv x y = Return z -> ~ y == 0 /\ z = x / y.
Proof.
  unfold pydiv. destruct (Qeq_bool y 0) eqn:E; [discriminate|].
  intros [= <-]. split; [|reflexivity].
  intros H. apply Qeq_bool_iff in H. congruence.
Qed.

(** * Facts about the engine *)

Module EngineFacts.
Import Engine Scenario.

Section Execution.

Variable place_order : list order -> order -> outcome order_res.

Lemma trade_qty_state (sd : side) (price : Q) (close_all_amount : option Q)
    (st : bot) :
  fst (trade_qty sd price close_all_amount st) = st.
Proof. unfold trade_qty. destruct sd, close_all_amount; reflexivity. Qed.

(** Every run of [execute_trade] takes one of the paths of [et_path]. *)
Lemma execute_trade_spec (st : bot) (symbol : string) (sd : side)
    (price : Q) (strategy_name : string) (close_all_amount : option Q) :
  et_path place_order st symbol sd price strategy_name close_all_amount
    (execute_trade place_order symbol sd price strategy_name
       close_all_amount st).
Proof.
  unfold execute_trade, bind.
  pose proof (trade_qty_state sd price close_all_amount st) as Hst.
  destruct (trade_qty sd price close_all_amount st) as [st0 [qty|e]] eqn:Eq;
    simpl in Hst; subst st0.
  2:{ now apply et_qty_raises. }
  destruct (Qltb (qty * price) 10) eqn:Enot.
  { apply Qltb_true in Enot. now apply et_rejected. }
  apply Qltb_false in Enot.
  unfold try_except, bind, call_place_order, lift.
  destruct (place_order (orders st) (mkOrder symbol qty sd)) as [r|e] eqn:Egw.
  2:{ now apply et_gateway_raises. }
  destruct (executed_qty_of r qty) as [q|e] eqn:Eex.
  2:{ now apply (et_answer_unreadable _ _ _ _ _ _ _ qty r). }
  replace (record_trade symbol sd price strategy_name (order_id_of r) q
             (add_order (mkOrder symbol qty sd) st))
    with (set_trades
            (ledger_after symbol sd price strategy_name (order_id_of r) q)
            (add_order (mkOrder symbol qty sd) st), Return tt)
    by (unfold record_trade, ledger_after; destruct sd; reflexivity).
  now apply (et_filled _ _ _ _ _ _ _ qty r q).
Qed.

(** ** [execute_trade]: the minimum-notional gate *)

(** C1.  Whenever the quantity of a call to [execute_trade] is computed and
    its notional [qty * price] is strictly below 10, the call only logs one
    warning and returns: no order reaches the exchange, the ledger and the
    peak prices are unchanged. *)
Theorem execute_trade_rejects_small_notional
    (st : bot) (symbol : string) (sd : side) (price : Q)
    (strategy_name : string) (close_all_amount : option Q) (qty : Q) :
  trade_qty sd price close_all_amount st = (st, Return qty) ->
  qty * price < 10 ->
  exists st',
    execute_trade place_order symbol sd price strategy_name
                  close_all_amount st = (st', Return tt)
    /\ trades st' = trades st
    /\ orders st' = orders st
    /\ peak_prices st' = peak_prices st
    /\ events st' =
       events st ++ [mkEvent lv_warning (MsgRejected sd symbol (qty * price))].
Proof.
  intros Hqty Hsmall.
  exists (add_event (mkEvent lv_warning (MsgRejected sd symbol (qty * price))) st).
  unfold execute_trade, bind. rewrite Hqty.
  apply Qltb_true in Hsmall. rewrite Hsmall.
  repeat split.
Qed.

(** ** [execute_trade]: a failing exchange *)

(** C5.  When the order reaches the exchange and [place_order] raises, the
    exception is caught: one error event is logged, the ledger and the peak
    prices are unchanged, and [execute_trade] returns normally. *)
Theorem execute_trade_gateway_failure
    (st : bot) (symbol : string) (sd : side) (price : Q)
    (strategy_name : string) (close_all_amount : option Q) (qty : Q)
    (e : exn) :
  trade_qty sd price close_all_amount st = (st, Return qty) ->
  10 <= qty * price ->
  place_order (orders st) (mkOrder symbol qty sd) = Raise e ->
  exists st',
    execute_trade place_order symbol sd price strategy_name
                  close_all_amount st = (st', Return tt)
    /\ trades st' = trades st
    /\ peak_prices st' = peak_prices st
    /\ orders st' = orders st ++ [mkOrder symbol qty sd]
    /\ events st' =
       events st ++ [mkEvent lv_error (MsgOrderError symbol e)].
Proof.
  intros Hqty Hbig Hgw.
  exists (add_event (mkEvent lv_error (MsgOrderError symbol e))
            (add_order (mkOrder symbol qty sd) st)).
  unfold execute_trade, bind. rewrite Hqty.
  apply Qltb_false in Hbig. rewrite Hbig.
  unfold try_except, bind, call_place_order. rewrite Hgw.
  repeat split.
Qed.

End Execution.

(** A full-position SELL of 0.05 coins at price 100 is worth 5 USDT. *)
Lemma execute_trade_rejects_small_notional_witness :
  exists st',
    execute_trade filling_exchange "BTCUSDT" SELL 100 "TTP" (Some 0.05) (init [])
      = (st', Return tt)
    /\ trades st' = trades (init [])
    /\ orders st' = orders (init [])
    /\ peak_prices st' = peak_prices (init [])
    /\ events st' =
       events (init []) ++
       [mkEvent lv_warning (MsgRejected SELL "BTCUSDT" (0.05 * 100))].
Proof.
  apply (execute_trade_rejects_small_notional filling_exchange (init []) "BTCUSDT" SELL 100
           "TTP" (Some 0.05) 0.05).
  - reflexivity.
  - reflexivity.
Defined.

Lemma execute_trade_gateway_failure_witness :
  exists st',
    execute_trade failing_exchange "BTCUSDT" BUY 100 "DCA" None (init [])
      = (st', Return tt)
    /\ trades st' = trades (init [])
    /\ peak_prices st' = peak_prices (init [])
    /\ orders st' = orders (init []) ++ [mkOrder "BTCUSDT" (15 / 100) BUY]
    /\ events st' =
       events (init []) ++
       [mkEvent lv_error
          (MsgOrderError "BTCUSDT" (HTTPError "400 Bad Request"))].
Proof.
  apply (execute_trade_gateway_failure failing_exchange (init []) "BTCUSDT"
           BUY 100 "DCA" None (15 / 100) (HTTPError "400 Bad Request")).
  - reflexivity.
  - vm_compute. discriminate.
  - reflexivity.
Defined.

(** ** Sums over rows *)

Lemma fold_sum_shift (f : trade -> Q) (l : list trade) (a : Q) :
  fold_left (fun acc t => acc + f t) l a == a + sum_of f l.
Proof.
  unfold sum_of. revert a.
  induction l as [|t l IH]; intros a; simpl.
  - ring.
  - rewrite (IH (a + f t)), (IH (0 + f t)). ring.
Qed.

Lemma sum_of_cons (f : trade -> Q) (t : trade) (l : list trade) :
  sum_of f (t :: l) == f t + sum_of f l.
Proof.
  unfold sum_of at 1. simpl. rewrite fold_sum_shift. ring.
Qed.

Lemma sum_of_app (f : trade -> Q) (l1 l2 : list trade) :
  sum_of f (l1 ++ l2) == sum_of f l1 + sum_of f l2.
Proof.
  induction l1 as [|t l1 IH]; simpl.
  - unfold sum_of at 2. simpl. ring.
  - rewrite !sum_of_cons, IH. ring.
Qed.

Lemma wf_totals (l : list trade) :
  Forall wf_trade l ->
  0 <= total_amount_of l /\ 0 <= total_cost_of l
  /\ (0 < total_amount_of l -> 0 < total_cost_of l).
Proof.
  unfold total_amount_of, total_cost_of.
  induction 1 as [|t l [Hp Ha] _ (IHa & IHc & IHpos)].
  - unfold sum_of; simpl. repeat split; try apply Qle_refl. intros H; exact H.
  - rewrite !sum_of_cons.
    assert (Hpa : 0 <= t_price t * t_amount t).
    { apply Qmult_le_0_compat; [apply Qlt_le_weak|]; assumption. }
    repeat split; try lra.
    intros Htot.
    destruct (Qlt_le_dec 0 (t_amount t)) as [Hlt|Hle].
    + assert (0 < t_price t * t_amount t).
      { apply Qmult_lt_0_compat; assumption. }
      lra.
    + assert (0 < sum_of t_amount l) by lra.
      specialize (IHpos H). lra.
Qed.

Lemma avg_price_of_positive (l : list trade) (avg : Q) :
  Forall wf_trade l ->
  avg_price_of l = Return avg ->
  ~ avg == 0 ->
  0 < avg.
Proof.
  intros Hwf Havg Hnz. unfold avg_price_of in Havg.
  destruct (Qltb 0 (total_amount_of l)) eqn:E.
  - apply Qltb_true in E. apply pydiv_inv in Havg as [_ ->].
    destruct (wf_totals l Hwf) as (_ & _ & Hpos).
    apply Qlt_shift_div_l; [assumption|]. specialize (Hpos E). lra.
  - injection Havg as <-. exfalso. apply Hnz. reflexivity.
Qed.

(** ** Stepping through the monad *)

Lemma bind_lift {A B} (o : outcome A) (k : A -> M B) (st : bot) :
  bind (lift o) k st =
  match o with Return a => k a st | Raise e => (st, Raise e) end.
Proof. unfold bind, lift. destruct o; reflexivity. Qed.

Lemma bind_log {B} (m : message) (lv : level) (k : unit -> M B) (st : bot) :
  bind (log m lv) k st = k tt (add_event (mkEvent lv m) st).
Proof. reflexivity. Qed.

Lemma bind_ret {A B} (a : A) (k : A -> M B) (st : bot) :
  bind (ret a) k st = k a st.
Proof. reflexivity. Qed.

Lemma bind_bind {A B C} (m : M A) (k : A -> M B) (h : B -> M C) (st : bot) :
  bind (bind m k) h st = bind m (fun a => bind (k a) h) st.
Proof. unfold bind. destruct (m st) as [st1 [a|e]]; reflexivity. Qed.

Section PositionManager.

Variable place_order : list order -> order -> outcome order_res.

(** ** What [execute_trade] leaves alone *)

Lemma execute_trade_frame (st : bot) (symbol : string) (sd : side)
    (price : Q) (strategy_name : string) (close_all_amount : option Q) :
  let st' := fst (execute_trade place_order symbol sd price strategy_name
                    close_all_amount st) in
  peak_prices st' = peak_prices st
  /\ trade_amount_usdt st' = trade_amount_usdt st
  /\ (orders st' = orders st
      \/ exists qty, orders st' = orders st ++ [mkOrder symbol qty sd]).
Proof.
  unfold execute_trade, bind, trade_qty, try_except, call_place_order, lift,
    executed_qty_of, record_trade, log.
  destruct sd, close_all_amount; simpl;
    repeat match goal with
    | |- context [pydiv ?a ?b] => destruct (pydiv a b); simpl
    | |- context [Qltb ?a ?b] => destruct (Qltb a b); simpl
    | |- context [place_order ?a ?b] =>
        destruct (place_order a b) as [[? [[?|]|]]|]; simpl
    end; repeat split; eauto.
Qed.

(** A full-position SELL never raises: its quantity needs no division. *)
Lemma execute_trade_sell_returns (st : bot) (symbol : string) (price : Q)
    (strategy_name : string) (amount : Q) :
  snd (execute_trade place_order symbol SELL price strategy_name
         (Some amount) st) = Return tt.
Proof.
  unfold execute_trade, bind, trade_qty, try_except, call_place_order, lift,
    executed_qty_of, record_trade, log. simpl.
  destruct (Qltb (amount * price) 10); simpl; [reflexivity|].
  destruct (place_order _ _) as [[? [[?|]|]]|]; reflexivity.
Qed.

(** ** The trailing-stop branch *)

Lemma ttp_branch (st : bot) (symbol : string) (c avg profit : Q) :
  let rows := open_trades symbol (trades st) in
  rows <> [] ->
  avg_price_of rows = Return avg ->
  0 < avg ->
  profit_pct_of c avg = Return profit ->
  ttp_activation_pct <= profit ->
  exists st1 pk,
    (st1 = st \/
     st1 = add_event (mkEvent lv_info (MsgNewPeak symbol c))
             (set_peaks (insert symbol c) st))
    /\ peak_prices st1 !! symbol = Some pk
    /\ pk == Qmax (default avg (peak_prices st !! symbol)) c
    /\ avg < c
    /\ 0 < pk
    /\ manage_open_positions place_order symbol c st =
       if Qleb ttp_trail_pct ((pk - c) / pk)
       then execute_trade place_order symbol SELL c "TTP"
              (Some (total_amount_of rows))
              (add_event (mkEvent lv_info (MsgTtpTriggered symbol)) st1)
       else (st1, Return tt).
Proof.
  intros rows Hne Havg Hpos Hprofit Hact.
  apply pydiv_inv in Hprofit as [Hnz ->].
  assert (Hlt : avg < c).
  { apply Qnot_le_lt. intros Hle.
    assert ((c - avg) / avg <= 0).
    { apply Qle_shift_div_r; [assumption|]. lra. }
    unfold ttp_activation_pct in Hact. lra. }
  assert (Hdca : Qleb ((c - avg) / avg) (- dca_drop_pct) = false).
  { apply Qleb_false. unfold ttp_activation_pct, dca_drop_pct in *. lra. }
  apply Qleb_true in Hact.
  unfold manage_open_positions. fold rows.
  destruct rows as [|t l] eqn:Erows; [contradiction|].
  unfold bind at 1. unfold lift at 1. rewrite Havg.
  unfold bind at 1. unfold lift at 1. unfold profit_pct_of.
  rewrite (pydiv_nonzero _ _ Hnz). rewrite Hdca, Hact.
  unfold bind at 1. unfold get_peak at 1.
  destruct (Qltb (default avg (peak_prices st !! symbol)) c) eqn:Ecmp.
  - apply Qltb_true in Ecmp.
    exists (add_event (mkEvent lv_info (MsgNewPeak symbol c))
              (set_peaks (insert symbol c) st)), c.
    assert (Hc0 : ~ c == 0) by lra.
    split; [now right|]. split; [apply lookup_insert_eq|].
    split; [symmetry; apply Q.max_r; lra|].
    split; [assumption|]. split; [lra|].
    unfold bind, store_peak, log, peak_item, lift. simpl.
    rewrite lookup_insert_eq. rewrite (pydiv_nonzero _ _ Hc0).
    destruct (Qleb ttp_trail_pct ((c - c) / c)); reflexivity.
  - apply Qltb_false in Ecmp.
    destruct (peak_prices st !! symbol) as [p|] eqn:Epk; simpl in Ecmp.
    2:{ exfalso. lra. }
    exists st, p.
    assert (Hp0 : ~ p == 0) by lra.
    split; [now left|]. split; [assumption|].
    split; [symmetry; apply Q.max_l; assumption|].
    split; [assumption|]. split; [lra|].
    unfold bind, ret, peak_item, lift. simpl.
    rewrite Epk. rewrite (pydiv_nonzero _ _ Hp0).
    destruct (Qleb ttp_trail_pct ((p - c) / p)); reflexivity.
Qed.

(** C2.  For a symbol whose OPEN rows are well formed and not empty, once
    [profit_pct >= ttp_activation_pct] the stored peak becomes
    [max (stored peak, or avg_price when none is stored) current_price],
    ledger and orders being untouched by that update; then the position
    manager calls [execute_trade] with a SELL of the total open amount when
    [(peak - current_price) / peak >= ttp_trail_pct], and does nothing more
    when the drawdown is below [ttp_trail_pct]. *)
Theorem trailing_stop_fires_on_drawdown
    (st : bot) (symbol : string) (c avg profit : Q) :
  let rows := open_trades symbol (trades st) in
  rows <> [] ->
  Forall wf_trade rows ->
  avg_price_of rows = Return avg ->
  profit_pct_of c avg = Return profit ->
  ttp_activation_pct <= profit ->
  exists st1 peak,
    peak_prices st1 !! symbol = Some peak
    /\ peak == Qmax (default avg (peak_prices st !! symbol)) c
    /\ trades st1 = trades st
    /\ orders st1 = orders st
    /\ (ttp_trail_pct <= (peak - c) / peak ->
        manage_open_positions place_order symbol c st =
        execute_trade place_order symbol SELL c "TTP"
          (Some (total_amount_of rows))
          (add_event (mkEvent lv_info (MsgTtpTriggered symbol)) st1))
    /\ ((peak - c) / peak < ttp_trail_pct ->
        manage_open_positions place_order symbol c st = (st1, Return tt)).
Proof.
  intros rows Hne Hwf Havg Hprofit Hact.
  assert (Hpos : 0 < avg).
  { apply (avg_price_of_positive rows); [assumption..|].
    apply pydiv_inv in Hprofit. tauto. }
  destruct (ttp_branch st symbol c avg profit Hne Havg Hpos Hprofit Hact)
    as (st1 & pk & Hst1 & Hlook & Hmax & _ & _ & Hrun).
  exists st1, pk.
  split; [assumption|]. split; [assumption|].
  split; [destruct Hst1 as [->| ->]; reflexivity|].
  split; [destruct Hst1 as [->| ->]; reflexivity|].
  fold rows in Hrun.
  split; intros Hdd.
  - apply Qleb_true in Hdd. now rewrite Hdd in Hrun.
  - apply Qleb_false in Hdd. now rewrite Hdd in Hrun.
Qed.

(** C10.  When the trailing-stop branch runs on a position with a positive
    average price, the current price exceeds that average, so a peak is
    stored before [self.peak_prices[symbol]] is read: the position manager
    returns normally (no [KeyError]) and the symbol has a stored peak. *)
Theorem trailing_stop_peak_lookup_succeeds
    (st : bot) (symbol : string) (c avg profit : Q) :
  let rows := open_trades symbol (trades st) in
  rows <> [] ->
  avg_price_of rows = Return avg ->
  0 < avg ->
  profit_pct_of c avg = Return profit ->
  ttp_activation_pct <= profit ->
  avg < c
  /\ snd (manage_open_positions place_order symbol c st) = Return tt
  /\ is_Some (peak_prices
                (fst (manage_open_positions place_order symbol c st))
              !! symbol).
Proof.
  intros rows Hne Havg Hpos Hprofit Hact.
  destruct (ttp_branch st symbol c avg profit Hne Havg Hpos Hprofit Hact)
    as (st1 & pk & Hst1 & Hlook & _ & Hlt & _ & Hrun).
  split; [assumption|]. rewrite Hrun.
  destruct (Qleb ttp_trail_pct ((pk - c) / pk)).
  - split; [apply execute_trade_sell_returns|].
    destruct (execute_trade_frame
                (add_event (mkEvent lv_info (MsgTtpTriggered symbol)) st1)
                symbol SELL c "TTP" (Some (total_amount_of
                   (open_trades symbol (trades st))))) as (Hpk & _).
    rewrite Hpk. simpl. rewrite Hlook. eauto.
  - split; [reflexivity|]. simpl. rewrite Hlook. eauto.
Qed.

(** C3.  For a symbol with OPEN rows, when [profit_pct <= -dca_drop_pct]
    the position manager logs the DCA message and then does exactly one
    thing, the call [execute_trade(symbol, "BUY", current_price, "DCA")]:
    the trailing stop is not evaluated (the peak prices are unchanged), and
    at most one order, a BUY, reaches the exchange. *)
Theorem dca_buys_once_and_returns
    (st : bot) (symbol : string) (c avg profit : Q) :
  let rows := open_trades symbol (trades st) in
  let st' := fst (manage_open_positions place_order symbol c st) in
  rows <> [] ->
  avg_price_of rows = Return avg ->
  profit_pct_of c avg = Return profit ->
  profit <= - dca_drop_pct ->
  manage_open_positions place_order symbol c st =
    execute_trade place_order symbol BUY c "DCA" None
      (add_event (mkEvent lv_info (MsgSmartDca symbol profit)) st)
  /\ peak_prices st' = peak_prices st
  /\ (orders st' = orders st
      \/ exists qty, orders st' = orders st ++ [mkOrder symbol qty BUY]).
Proof.
  intros rows st' Hne Havg Hprofit Hdca.
  assert (Hrun : manage_open_positions place_order symbol c st =
    execute_trade place_order symbol BUY c "DCA" None
      (add_event (mkEvent lv_info (MsgSmartDca symbol profit)) st)).
  { unfold manage_open_positions. fold rows.
    destruct rows as [|t l] eqn:Erows; [contradiction|].
    unfold bind at 1. unfold lift at 1. rewrite Havg.
    unfold bind at 1. unfold lift at 1. rewrite Hprofit.
    apply Qleb_true in Hdca. rewrite Hdca. reflexivity. }
  split; [assumption|].
  unfold st'. rewrite Hrun.
  destruct (execute_trade_frame
              (add_event (mkEvent lv_info (MsgSmartDca symbol profit)) st)
              symbol BUY c "DCA" None) as (Hpk & _ & Hord).
  split; [exact Hpk | exact Hord].
Qed.

(** Every run of the position manager takes one of the paths of
    [pm_path]. *)
Lemma manage_open_positions_spec (st : bot) (symbol : string) (c : Q) :
  pm_path place_order st symbol c
    (manage_open_positions place_order symbol c st).
Proof.
  unfold manage_open_positions.
  destruct (open_trades symbol (trades st)) as [|t l] eqn:Erows.
  { apply pm_no_position. exact Erows. }
  assert (Hne : open_trades symbol (trades st) <> []) by (rewrite Erows; discriminate).
  rewrite <- Erows. clear Erows t l.
  rewrite bind_lift.
  destruct (avg_price_of _) as [avg|e] eqn:Eavg;
    [|now apply pm_avg_raises].
  rewrite bind_lift.
  destruct (profit_pct_of c avg) as [profit|e] eqn:Eprofit;
    [|now apply (pm_profit_raises _ _ _ _ avg)].
  destruct (Qleb profit (- dca_drop_pct)) eqn:Edca.
  { rewrite bind_log. apply (pm_dca _ _ _ _ avg); try assumption.
    now apply Qleb_true. }
  apply Qleb_false in Edca.
  destruct (Qleb ttp_activation_pct profit) eqn:Eact.
  2:{ apply Qleb_false in Eact. now apply (pm_idle _ _ _ _ avg profit). }
  apply Qleb_true in Eact.
  assert (Estep : forall k : M unit,
    (current_peak <- get_peak symbol avg ;;
     (if Qltb current_peak c
      then store_peak symbol c ;;; log (MsgNewPeak symbol c) lv_info
      else ret tt) ;;; k) st = k (peak_updated symbol avg c st)).
  { intros k. unfold peak_updated, bind, get_peak, store_peak, log, ret.
    destruct (Qltb (default avg (peak_prices st !! symbol)) c); reflexivity. }
  rewrite Estep. clear Estep.
  set (st1 := peak_updated symbol avg c st).
  unfold bind at 1. unfold peak_item.
  destruct (peak_prices st1 !! symbol) as [pk|] eqn:Epk.
  2:{ now apply (pm_peak_missing _ _ _ _ avg profit). }
  rewrite bind_lift.
  destruct (pydiv (pk - c) pk) as [dd|e] eqn:Edd.
  2:{ now apply (pm_drawdown_raises _ _ _ _ avg profit pk). }
  destruct (Qleb ttp_trail_pct dd) eqn:Etrail.
  - rewrite bind_log. apply Qleb_true in Etrail.
    now apply (pm_take_profit _ _ _ _ avg profit pk dd).
  - apply Qleb_false in Etrail.
    now apply (pm_trailing _ _ _ _ avg profit pk dd).
Qed.

Lemma peak_updated_frame (symbol : string) (avg c : Q) (st : bot) :
  trades (peak_updated symbol avg c st) = trades st
  /\ orders (peak_updated symbol avg c st) = orders st
  /\ trade_amount_usdt (peak_updated symbol avg c st) = trade_amount_usdt st.
Proof.
  unfold peak_updated.
  destruct (Qltb (default avg (peak_prices st !! symbol)) c);
    repeat split.
Qed.

(** In every branch the position manager sends at most one order. *)
Lemma manage_open_positions_at_most_one_order
    (st : bot) (symbol : string) (c : Q) :
  let st' := fst (manage_open_positions place_order symbol c st) in
  orders st' = orders st \/ exists o, orders st' = orders st ++ [o].
Proof.
  intros st'. subst st'.
  destruct (manage_open_positions_spec st symbol c);
    try (left; reflexivity);
    try (left; apply peak_updated_frame).
  - destruct (execute_trade_frame
                (add_event (mkEvent lv_info (MsgSmartDca symbol profit)) st)
                symbol BUY c "DCA" None) as (_ & _ & [Ho|[q Ho]]);
      [left|right; exists (mkOrder symbol q BUY)]; exact Ho.
  - destruct (execute_trade_frame
                (add_event (mkEvent lv_info (MsgTtpTriggered symbol))
                   (peak_updated symbol avg c st))
                symbol SELL c "TTP"
                (Some (total_amount_of (open_trades symbol (trades st)))))
      as (_ & _ & [Ho|[q Ho]]); simpl in Ho;
      rewrite (proj1 (proj2 (peak_updated_frame symbol avg c st))) in Ho;
      [left|right; exists (mkOrder symbol q SELL)]; exact Ho.
Qed.

End PositionManager.

(** The example of the specification: average 100, trail 1 %, peak 106;
    at 104.8 the drawdown is 1.2 / 106 and the SELL is made. *)
Lemma trailing_stop_fires_on_drawdown_witness :
  exists st1 peak,
    peak_prices st1 !! "BTCUSDT" = Some peak
    /\ peak == Qmax (default 100 (peak_prices trailing_state !! "BTCUSDT"))
                    104.8
    /\ trades st1 = trades trailing_state
    /\ orders st1 = orders trailing_state
    /\ (ttp_trail_pct <= (peak - 104.8) / peak ->
        manage_open_positions filling_exchange "BTCUSDT" 104.8 trailing_state =
        execute_trade filling_exchange "BTCUSDT" SELL 104.8 "TTP"
          (Some (total_amount_of
                   (open_trades "BTCUSDT" (trades trailing_state))))
          (add_event (mkEvent lv_info (MsgTtpTriggered "BTCUSDT")) st1))
    /\ ((peak - 104.8) / peak < ttp_trail_pct ->
        manage_open_positions filling_exchange "BTCUSDT" 104.8 trailing_state
        = (st1, Return tt)).
Proof.
  apply (trailing_stop_fires_on_drawdown filling_exchange trailing_state
           "BTCUSDT" 104.8 100 ((104.8 - 100) / 100)).
  - discriminate.
  - repeat constructor; simpl; lra.
  - reflexivity.
  - reflexivity.
  - vm_compute. discriminate.
Defined.

(** The whole example, run from a fresh engine: the peak follows 104 and
    106, and at 104.8 the lot is sold in full and CLOSED. *)
Example trailing_stop_scenario :
  let s1 := fst (manage_open_positions filling_exchange "BTCUSDT" 104
                   (init [lot "BTCUSDT" 100 1])) in
  let s2 := fst (manage_open_positions filling_exchange "BTCUSDT" 106 s1) in
  let s3 := fst (manage_open_positions filling_exchange "BTCUSDT" 104.8 s2) in
  peak_prices s1 !! "BTCUSDT" = Some 104
  /\ peak_prices s2 !! "BTCUSDT" = Some 106
  /\ orders s2 = []
  /\ orders s3 = [mkOrder "BTCUSDT" 1 SELL]
  /\ trades s3 = [mkTrade "BTCUSDT" "4211" BUY 100 1 "Strategy_Auto" CLOSED]
  /\ Qred ((106 - 104.8) / 106) = 3 # 265.
Proof. vm_compute. repeat split. Qed.

Lemma trailing_stop_peak_lookup_succeeds_witness :
  100 < 104
  /\ snd (manage_open_positions filling_exchange "BTCUSDT" 104
            (init [lot "BTCUSDT" 100 1])) = Return tt
  /\ is_Some (peak_prices
                (fst (manage_open_positions filling_exchange "BTCUSDT" 104
                        (init [lot "BTCUSDT" 100 1])))
              !! "BTCUSDT").
Proof.
  apply (trailing_stop_peak_lookup_succeeds filling_exchange
           (init [lot "BTCUSDT" 100 1]) "BTCUSDT" 104 100
           ((104 - 100) / 100)).
  - discriminate.
  - reflexivity.
  - reflexivity.
  - reflexivity.
  - vm_compute. discriminate.
Defined.

(** The example of the specification: average 100, price 94, a loss of
    6 %. *)
Lemma dca_buys_once_and_returns_witness :
  manage_open_positions filling_exchange "BTCUSDT" 94
    (init [lot "BTCUSDT" 100 1]) =
    execute_trade filling_exchange "BTCUSDT" BUY 94 "DCA" None
      (add_event (mkEvent lv_info
                    (MsgSmartDca "BTCUSDT" ((94 - 100) / 100)))
         (init [lot "BTCUSDT" 100 1]))
  /\ peak_prices (fst (manage_open_positions filling_exchange "BTCUSDT" 94
                         (init [lot "BTCUSDT" 100 1])))
     = peak_prices (init [lot "BTCUSDT" 100 1])
  /\ (orders (fst (manage_open_positions filling_exchange "BTCUSDT" 94
                     (init [lot "BTCUSDT" 100 1])))
      = orders (init [lot "BTCUSDT" 100 1])
      \/ exists qty,
           orders (fst (manage_open_positions filling_exchange "BTCUSDT" 94
                          (init [lot "BTCUSDT" 100 1])))
           = orders (init [lot "BTCUSDT" 100 1])
             ++ [mkOrder "BTCUSDT" qty BUY]).
Proof.
  apply (dca_buys_once_and_returns filling_exchange
           (init [lot "BTCUSDT" 100 1]) "BTCUSDT" 94 100 ((94 - 100) / 100)).
  - discriminate.
  - reflexivity.
  - reflexivity.
  - vm_compute. discriminate.
Defined.

(** ** The ledger *)

Lemma open_trades_app (symbol : string) (db1 db2 : list trade) :
  open_trades symbol (db1 ++ db2)
  = open_trades symbol db1 ++ open_trades symbol db2.
Proof. unfold open_trades. apply List.filter_app. Qed.

Lemma is_open_close_trade (symbol other : string) (t : trade) :
  is_open other (close_trade symbol t)
  = is_open other t && negb (is_open symbol t).
Proof.
  unfold close_trade.
  destruct (is_open symbol t) eqn:E; simpl.
  - unfold is_open. simpl. now rewrite !andb_false_r.
  - now rewrite andb_true_r.
Qed.

Lemma open_trades_close_all_same (symbol : string) (db : list trade) :
  open_trades symbol (close_all symbol db) = [].
Proof.
  unfold open_trades, close_all.
  induction db as [|t db IH]; [reflexivity|].
  cbn [map List.filter]. rewrite is_open_close_trade.
  destruct (is_open symbol t); cbn [andb negb]; exact IH.
Qed.

Lemma is_open_other (symbol other : string) (t : trade) :
  other <> symbol -> is_open other t = true -> is_open symbol t = false.
Proof.
  unfold is_open. intros Hne H.
  apply andb_true_iff in H as [H _]. apply String.eqb_eq in H.
  destruct (String.eqb_spec (t_symbol t) symbol) as [E|E]; [|reflexivity].
  congruence.
Qed.

Lemma open_trades_close_all_other (symbol other : string) (db : list trade) :
  other <> symbol ->
  open_trades other (close_all symbol db) = open_trades other db.
Proof.
  intros Hne. unfold open_trades, close_all.
  induction db as [|t db IH]; [reflexivity|].
  cbn [map List.filter]. rewrite is_open_close_trade.
  destruct (is_open other t) eqn:E; cbn [andb].
  - rewrite (is_open_other symbol other t Hne E). cbn [negb].
    unfold close_trade at 1. rewrite (is_open_other symbol other t Hne E).
    now rewrite IH.
  - exact IH.
Qed.

Lemma close_all_status (symbol : string) (db : list trade) (t : trade) :
  In t (close_all symbol db) -> t_symbol t = symbol -> t_status t = CLOSED.
Proof.
  unfold close_all. intros Hin Hsym.
  apply in_map_iff in Hin as (t0 & <- & _).
  unfold close_trade in *.
  destruct (is_open symbol t0) eqn:E; [reflexivity|].
  unfold is_open in E. rewrite Hsym, String.eqb_refl in E. simpl in E.
  destruct (t_status t0); [discriminate|reflexivity].
Qed.

Lemma close_all_keeps_others (symbol : string) (db : list trade) (t : trade) :
  In t db -> t_symbol t <> symbol -> In t (close_all symbol db).
Proof.
  intros Hin Hne. unfold close_all. apply in_map_iff. exists t.
  split; [|assumption].
  unfold close_trade, is_open.
  destruct (String.eqb_spec (t_symbol t) symbol); [contradiction|reflexivity].
Qed.

Section Selling.

Variable place_order : list order -> order -> outcome order_res.

(** C7 (as amended).  When a SELL is filled, the one UPDATE of
    [execute_trade] closes every OPEN row of the symbol: after the call the
    ledger is [close_all symbol] of the ledger before, the symbol has no OPEN
    row, each of its rows is CLOSED, and the OPEN rows of every other symbol
    are the same as before. *)
Theorem filled_sell_closes_every_open_row
    (st : bot) (symbol : string) (price : Q) (strategy_name : string)
    (close_all_amount : option Q) (qty executed_qty : Q) (r : order_res) :
  let st' := fst (execute_trade place_order symbol SELL price strategy_name
                    close_all_amount st) in
  trade_qty SELL price close_all_amount st = (st, Return qty) ->
  10 <= qty * price ->
  place_order (orders st) (mkOrder symbol qty SELL) = Return r ->
  executed_qty_of r qty = Return executed_qty ->
  trades st' = close_all symbol (trades st)
  /\ open_trades symbol (trades st') = []
  /\ (forall t, In t (trades st') -> t_symbol t = symbol ->
                t_status t = CLOSED)
  /\ (forall other, other <> symbol ->
        open_trades other (trades st') = open_trades other (trades st)).
Proof.
  intros st' Hqty Hbig Hgw Hex.
  assert (Hst' : trades st' = close_all symbol (trades st)).
  { unfold st', execute_trade, bind. rewrite Hqty.
    apply Qltb_false in Hbig. rewrite Hbig.
    unfold try_except, bind, call_place_order, lift. rewrite Hgw, Hex.
    reflexivity. }
  rewrite Hst'. split; [reflexivity|].
  split; [apply open_trades_close_all_same|].
  split; [apply close_all_status|].
  intros other Hne. now apply open_trades_close_all_other.
Qed.

End Selling.

Lemma filled_sell_closes_every_open_row_witness :
  trades (fst (execute_trade filling_exchange "BTCUSDT" SELL 104.8 "TTP"
                 (Some 1) trailing_state))
  = close_all "BTCUSDT" (trades trailing_state)
  /\ open_trades "BTCUSDT"
       (trades (fst (execute_trade filling_exchange "BTCUSDT" SELL 104.8
                       "TTP" (Some 1) trailing_state))) = []
  /\ (forall t,
        In t (trades (fst (execute_trade filling_exchange "BTCUSDT" SELL
                             104.8 "TTP" (Some 1) trailing_state))) ->
        t_symbol t = "BTCUSDT"%string -> t_status t = CLOSED)
  /\ (forall other, other <> "BTCUSDT"%string ->
        open_trades other
          (trades (fst (execute_trade filling_exchange "BTCUSDT" SELL 104.8
                          "TTP" (Some 1) trailing_state)))
        = open_trades other (trades trailing_state)).
Proof.
  apply (filled_sell_closes_every_open_row filling_exchange trailing_state
           "BTCUSDT" 104.8 "TTP" (Some 1) 1 1
           (mkOrderRes (Some "4211"%string) None)).
  - reflexivity.
  - vm_compute. discriminate.
  - reflexivity.
  - reflexivity.
Defined.

(** C7, the invariant as the specification words it, does not hold: after
    four cycles (an entry, a rise, the trailing-stop SELL, a second entry)
    BTCUSDT has a CLOSED row and an OPEN row. *)
Lemma closed_and_open_rows_coexist :
  let st := fst (run filling_exchange two_positions (init [])) in
  trades st =
    [mkTrade "BTCUSDT" "4211" BUY 100 (15 / 100) "Strategy_Auto" CLOSED;
     mkTrade "BTCUSDT" "4211" BUY 100 (15 / 100) "Strategy_Auto" OPEN]
  /\ ~ all_open_or_all_closed "BTCUSDT" (trades st).
Proof.
  assert (E : trades (fst (run filling_exchange two_positions (init []))) =
    [mkTrade "BTCUSDT" "4211" BUY 100 (15 / 100) "Strategy_Auto" CLOSED;
     mkTrade "BTCUSDT" "4211" BUY 100 (15 / 100) "Strategy_Auto" OPEN])
    by (vm_compute; reflexivity).
  cbv zeta. rewrite E. split; [reflexivity|].
  intros [H|H].
  - specialize (H _ (or_introl eq_refl) eq_refl). discriminate.
  - specialize (H _ (or_intror (or_introl eq_refl)) eq_refl). discriminate.
Qed.

(** ** The weighted average *)

(** C4 (as amended).  For OPEN rows that are well formed and whose total
    amount is positive, the average price is
    [sum (price * amount) / sum amount], it is positive, and neither it nor
    [profit_pct] raises. *)
Theorem weighted_average_and_profit_computed
    (rows : list trade) (c : Q) :
  let avg := total_cost_of rows / total_amount_of rows in
  rows <> [] ->
  Forall wf_trade rows ->
  0 < total_amount_of rows ->
  avg_price_of rows = Return avg
  /\ 0 < avg
  /\ profit_pct_of c avg = Return ((c - avg) / avg).
Proof.
  intros avg _ Hwf Htot.
  assert (Havg : avg_price_of rows = Return avg).
  { unfold avg_price_of. apply Qltb_true in Htot. rewrite Htot.
    apply pydiv_nonzero. apply Qltb_true in Htot. lra. }
  destruct (wf_totals rows Hwf) as (_ & _ & Hcost).
  assert (Hpos : 0 < avg).
  { unfold avg. apply Qlt_shift_div_l; [assumption|].
    specialize (Hcost Htot). lra. }
  split; [assumption|]. split; [assumption|].
  unfold profit_pct_of. apply pydiv_nonzero. lra.
Qed.

Lemma weighted_average_and_profit_computed_witness :
  avg_price_of three_lots
  = Return (total_cost_of three_lots / total_amount_of three_lots)
  /\ 0 < total_cost_of three_lots / total_amount_of three_lots
  /\ profit_pct_of 94 (total_cost_of three_lots / total_amount_of three_lots)
     = Return ((94 - total_cost_of three_lots / total_amount_of three_lots)
               / (total_cost_of three_lots / total_amount_of three_lots)).
Proof.
  apply (weighted_average_and_profit_computed three_lots 94).
  - discriminate.
  - repeat constructor; simpl; lra.
  - reflexivity.
Defined.

(** C4, the example of the claim: the records (100, 1), (90, 1), (80, 2)
    have total cost 350 and total amount 4; their average is 87.5, not
    82.5. *)
Lemma weighted_average_example_is_not_82_5 :
  total_cost_of three_lots == 350
  /\ total_amount_of three_lots == 4
  /\ exists avg, avg_price_of three_lots = Return avg
                 /\ avg == 87.5 /\ ~ avg == 82.5.
Proof.
  split; [reflexivity|]. split; [reflexivity|].
  eexists. split; [reflexivity|]. split; [reflexivity|].
  intros H. vm_compute in H. discriminate.
Qed.

(** With a total amount of zero [avg_price] is set to 0 and the next line
    divides by it. *)
Example zero_total_amount_raises :
  avg_price_of unfilled_lot = Return 0
  /\ profit_pct_of 100 0 = Raise ZeroDivisionError
  /\ manage_open_positions filling_exchange "BTCUSDT" 100 (init unfilled_lot)
     = (init unfilled_lot, Raise ZeroDivisionError).
Proof. repeat split. Qed.

(** ** The entry gate of the trading loop *)

Section EntryGate.

Variable place_order : list order -> order -> outcome order_res.

(** What [execute_trade] does to the ledger: nothing, or the database block
    of a filled order, in which case the order was sent. *)
Lemma execute_trade_ledger (st : bot) (symbol : string) (sd : side)
    (price : Q) (strategy_name : string) (close_all_amount : option Q) :
  let st' := fst (execute_trade place_order symbol sd price strategy_name
                    close_all_amount st) in
  (trades st' = trades st
   /\ (orders st' = orders st
       \/ exists qty, orders st' = orders st ++ [mkOrder symbol qty sd]))
  \/ (exists qty r executed_qty,
        trade_qty sd price close_all_amount st = (st, Return qty)
        /\ place_order (orders st) (mkOrder symbol qty sd) = Return r
        /\ executed_qty_of r qty = Return executed_qty
        /\ orders st' = orders st ++ [mkOrder symbol qty sd]
        /\ trades st' =
           ledger_after symbol sd price strategy_name (order_id_of r)
             executed_qty (trades st)).
Proof.
  intros st'. subst st'.
  destruct (execute_trade_spec place_order st symbol sd price strategy_name
              close_all_amount) as [e|qty|qty e|qty r e|qty r q];
    cbn [fst].
  - left. split; [reflexivity|now left].
  - left. split; [reflexivity|now left].
  - left. split; [reflexivity|right; now exists qty].
  - left. split; [reflexivity|right; now exists qty].
  - right. exists qty, r, q. repeat split; assumption.
Qed.

Lemma open_trades_after_buy (symbol : string) (price : Q)
    (strategy_name order_id : string) (executed_qty : Q) (db : list trade) :
  open_trades symbol
    (ledger_after symbol BUY price strategy_name order_id executed_qty db)
  = open_trades symbol db
    ++ [mkTrade symbol order_id BUY price executed_qty strategy_name OPEN].
Proof.
  unfold ledger_after. rewrite open_trades_app. f_equal.
  unfold open_trades, is_open. cbn [List.filter t_symbol t_status].
  now rewrite String.eqb_refl.
Qed.

(** A position that the manager finds open is still open after the step
    unless the step sent a SELL. *)
Lemma manage_open_positions_keeps_position
    (st : bot) (symbol : string) (c : Q) :
  let st1 := fst (manage_open_positions place_order symbol c st) in
  open_trades symbol (trades st) <> [] ->
  open_trades symbol (trades st1) = [] ->
  exists qty, orders st1 = orders st ++ [mkOrder symbol qty SELL].
Proof.
  intros st1 Hrows Hclosed. subst st1.
  destruct (manage_open_positions_spec place_order st symbol c)
    as [Hno| | |avg profit|avg profit|avg profit|avg profit pk e
       |avg profit pk dd|avg profit pk dd];
    cbn [fst] in Hclosed;
    try contradiction;
    try (rewrite (proj1 (peak_updated_frame symbol avg c st)) in Hclosed;
         contradiction).
  - exfalso.
    destruct (execute_trade_ledger
                (add_event (mkEvent lv_info (MsgSmartDca symbol profit)) st)
                symbol BUY c "DCA" None)
      as [[Htr _]|(qty & r & q & _ & _ & _ & _ & Htr)];
      rewrite Htr in Hclosed; cbn [trades add_event] in Hclosed.
    + contradiction.
    + rewrite open_trades_after_buy in Hclosed.
      destruct (open_trades symbol (trades st)); discriminate.
  - destruct (execute_trade_ledger
                (add_event (mkEvent lv_info (MsgTtpTriggered symbol))
                   (peak_updated symbol avg c st))
                symbol SELL c "TTP"
                (Some (total_amount_of (open_trades symbol (trades st)))))
      as [[Htr _]|(qty & r & q & _ & _ & _ & Hord & _)].
    + exfalso. rewrite Htr in Hclosed. cbn [trades add_event] in Hclosed.
      rewrite (proj1 (peak_updated_frame symbol avg c st)) in Hclosed.
      contradiction.
    + exists qty. rewrite Hord. cbn [orders add_event].
      now rewrite (proj1 (proj2 (peak_updated_frame symbol avg c st))).
Qed.

(** C8 (as amended).  Whenever the loop body does anything after the
    position manager, the manager has returned normally, the symbol has no
    OPEN row left, the selected strategy signals BUY, and what follows is
    the one call [execute_trade(symbol, "BUY", price, "Strategy_Auto")];
    the symbol then either had no OPEN row when the cycle began, or the
    manager has just sent a SELL for it.  So an entry never follows a DCA
    BUY, and it can follow the trailing-stop SELL of the same cycle. *)
Theorem entry_only_without_open_position
    (st : bot) (symbol : string) (df : frame) (active_strategy : strategy)
    (st1 : bot) (r : outcome unit) :
  manage_open_positions place_order symbol (f_close df) st = (st1, r) ->
  manage_then_enter place_order symbol df active_strategy st <> (st1, r) ->
  r = Return tt
  /\ open_trades symbol (trades st1) = []
  /\ run_strategy active_strategy df = SigBUY
  /\ manage_then_enter place_order symbol df active_strategy st =
     execute_trade place_order symbol BUY (f_close df) "Strategy_Auto" None
       st1
  /\ (open_trades symbol (trades st) = []
      \/ exists qty, orders st1 = orders st ++ [mkOrder symbol qty SELL]).
Proof.
  intros Hpm Hmore.
  unfold manage_then_enter in *. unfold bind at 1 in Hmore. unfold bind at 1.
  rewrite Hpm in *.
  destruct r as [[]|e]; [|contradiction].
  unfold bind, check_open_position in *.
  destruct (open_trades symbol (trades st1)) as [|t l] eqn:Eopen;
    cbn [length Nat.ltb Nat.leb] in *; [|contradiction].
  destruct (run_strategy active_strategy df); try contradiction.
  repeat split.
  destruct (open_trades symbol (trades st)) as [|t l] eqn:Erows;
    [now left|right].
  apply (f_equal fst) in Hpm. cbn [fst] in Hpm. subst st1.
  apply manage_open_positions_keeps_position; [|assumption].
  rewrite Erows. discriminate.
Qed.

End EntryGate.

(** With no OPEN row and RSI-7 at 20 the scalping strategy enters. *)
Lemma entry_only_without_open_position_witness :
  Return tt = Return tt
  /\ open_trades "BTCUSDT" (trades (init [])) = []
  /\ run_strategy strategy_2_rsi_scalping (frame_at 100 20) = SigBUY
  /\ manage_then_enter filling_exchange "BTCUSDT" (frame_at 100 20)
       strategy_2_rsi_scalping (init []) =
     execute_trade filling_exchange "BTCUSDT" BUY (f_close (frame_at 100 20))
       "Strategy_Auto" None (init [])
  /\ (open_trades "BTCUSDT" (trades (init [])) = []
      \/ exists qty,
           orders (init []) = orders (init []) ++ [mkOrder "BTCUSDT" qty SELL]).
Proof.
  apply (entry_only_without_open_position filling_exchange (init [])
           "BTCUSDT" (frame_at 100 20) strategy_2_rsi_scalping (init [])
           (Return tt)).
  - reflexivity.
  - vm_compute. discriminate.
Defined.

(** C8 as the claim words it does not hold: with the position of
    [trailing_state], a close of 104.8 and a BUY signal, one pass of the
    loop body sells the position at the trailing stop and opens a new one. *)
Lemma take_profit_then_entry_in_one_cycle :
  let st := fst (process_symbol filling_exchange "BTCUSDT"
                   (Return (frame_at 104.8 20)) trailing_state) in
  open_trades "BTCUSDT" (trades trailing_state) = [lot "BTCUSDT" 100 1]
  /\ orders st = [mkOrder "BTCUSDT" 1 SELL;
                  mkOrder "BTCUSDT" (15 / 104.8) BUY]
  /\ trades st =
     [mkTrade "BTCUSDT" "4211" BUY 100 1 "Strategy_Auto" CLOSED;
      mkTrade "BTCUSDT" "4211" BUY 104.8 (15 / 104.8) "Strategy_Auto" OPEN]
  /\ events st =
     [mkEvent lv_info (MsgRegime SIDEWAYS "strategy_2_rsi_scalping");
      mkEvent lv_info (MsgTtpTriggered "BTCUSDT");
      mkEvent lv_success (MsgExecuted SELL "BTCUSDT" "TTP" 104.8 1);
      mkEvent lv_success
        (MsgExecuted BUY "BTCUSDT" "Strategy_Auto" 104.8 (15 / 104.8))].
Proof. vm_compute. repeat split. Qed.

(** ** The invariant of the engine *)

Lemma engine_invariant_ext (st st' : bot) :
  trades st' = trades st ->
  peak_prices st' = peak_prices st ->
  trade_amount_usdt st' = trade_amount_usdt st ->
  engine_invariant st -> engine_invariant st'.
Proof.
  unfold engine_invariant, peak_bounds_cost.
  intros -> -> ->. tauto.
Qed.

Lemma engine_invariant_add_event (ev : event) (st : bot) :
  engine_invariant st -> engine_invariant (add_event ev st).
Proof. now apply engine_invariant_ext. Qed.

Lemma engine_invariant_init (db : list trade) :
  Forall wf_trade db -> engine_invariant (init db).
Proof.
  intros Hwf. split; [exact Hwf|]. split; [discriminate|].
  intros symbol peak H. cbn in H. rewrite lookup_empty in H. discriminate.
Qed.

Lemma open_trades_wf (symbol : string) (db : list trade) :
  Forall wf_trade db -> Forall wf_trade (open_trades symbol db).
Proof.
  intros H. apply List.Forall_forall. intros t Hin.
  apply List.filter_In in Hin as [Hin _].
  rewrite List.Forall_forall in H. now apply H.
Qed.

Lemma close_all_wf (symbol : string) (db : list trade) :
  Forall wf_trade db -> Forall wf_trade (close_all symbol db).
Proof.
  unfold close_all. induction 1 as [|t l Ht _ IH]; cbn [map];
    constructor; [|exact IH].
  unfold close_trade. destruct (is_open symbol t); exact Ht.
Qed.

Lemma open_trades_append_other (other : string) (t : trade)
    (db : list trade) :
  t_symbol t <> other ->
  open_trades other (db ++ [t]) = open_trades other db.
Proof.
  intros Hne. rewrite open_trades_app.
  unfold open_trades at 2. cbn [List.filter]. unfold is_open.
  destruct (String.eqb_spec (t_symbol t) other); [contradiction|].
  cbn [andb]. apply app_nil_r.
Qed.

(** The average of a well-formed position that has one, as a product. *)
Lemma avg_price_of_times_total (rows : list trade) (avg : Q) :
  Forall wf_trade rows ->
  avg_price_of rows = Return avg ->
  ~ avg == 0 ->
  0 < avg /\ 0 < total_amount_of rows
  /\ total_cost_of rows == avg * total_amount_of rows.
Proof.
  intros Hwf Havg Hnz.
  split; [now apply (avg_price_of_positive rows)|].
  unfold avg_price_of in Havg.
  destruct (Qltb 0 (total_amount_of rows)) eqn:E.
  - apply Qltb_true in E. split; [exact E|].
    apply pydiv_inv in Havg as [Hz ->]. field. exact Hz.
  - injection Havg as <-. exfalso. apply Hnz. reflexivity.
Qed.

(** A profit at or above the activation threshold means a price above the
    average; a loss at or below the DCA threshold, a price below it. *)
Lemma profit_pct_sign (c avg profit : Q) :
  0 < avg ->
  profit_pct_of c avg = Return profit ->
  (ttp_activation_pct <= profit -> avg < c)
  /\ (profit <= - dca_drop_pct -> c < avg).
Proof.
  intros Hpos Hp. apply pydiv_inv in Hp as [_ ->].
  unfold ttp_activation_pct, dca_drop_pct. split; intros H.
  - apply Qnot_le_lt. intros Hle.
    assert ((c - avg) / avg <= 0)
      by (apply Qle_shift_div_r; [assumption|lra]).
    lra.
  - apply Qnot_le_lt. intros Hle.
    assert (0 <= (c - avg) / avg)
      by (apply Qle_shift_div_l; [assumption|lra]).
    lra.
Qed.

Section Invariant.

Variable place_order : list order -> order -> outcome order_res.

(** The exchange reports a filled quantity that is not negative. *)
Hypothesis executed_qty_nonneg :
  forall sent o r q,
    place_order sent o = Return r ->
    executedQty r = Some (Some q) ->
    0 <= q.

Lemma engine_invariant_buy (st : bot) (symbol : string) (c : Q)
    (strategy_name : string) :
  engine_invariant st ->
  0 < c ->
  (forall peak, peak_prices st !! symbol = Some peak -> c <= peak) ->
  engine_invariant
    (fst (execute_trade place_order symbol BUY c strategy_name None st)).
Proof.
  intros Hinv Hc Hpeak.
  destruct (execute_trade_frame place_order st symbol BUY c strategy_name
              None) as (Hpk & Hamt & _).
  destruct (execute_trade_ledger place_order st symbol BUY c strategy_name
              None) as [[Htr _]|(qty & r & q & Hqty & Hgw & Hex & _ & Htr)].
  { now apply (engine_invariant_ext st). }
  destruct Hinv as (Hwf & Ha & Hb).
  assert (Hq : 0 <= q).
  { unfold executed_qty_of in Hex.
    destruct (executedQty r) as [[q'|]|] eqn:Er.
    - injection Hex as <-. exact (executed_qty_nonneg _ _ _ _ Hgw Er).
    - discriminate.
    - injection Hex as <-. unfold trade_qty in Hqty.
      injection Hqty as Hqty. apply pydiv_inv in Hqty as [_ ->].
      apply Qle_shift_div_l; [assumption|]. lra. }
  split; [|split].
  - rewrite Htr. unfold ledger_after. apply Forall_app. split; [exact Hwf|].
    constructor; [|constructor]. split; assumption.
  - now rewrite Hamt.
  - intros other peak Hlook. rewrite Hpk in Hlook. rewrite Htr.
    destruct (Hb other peak Hlook) as [Hp Hcost]. split; [exact Hp|].
    destruct (String.eqb_spec symbol other) as [<-|Hne].
    + rewrite open_trades_after_buy.
      unfold total_cost_of, total_amount_of in *. rewrite !sum_of_app.
      unfold sum_of at 2 4. cbn [fold_left t_price t_amount].
      specialize (Hpeak peak Hlook).
      assert (c * q <= peak * q) by (apply Qmult_le_compat_r; assumption).
      lra.
    + unfold ledger_after.
      rewrite open_trades_append_other by exact Hne. exact Hcost.
Qed.

Lemma engine_invariant_sell (st : bot) (symbol : string) (c : Q)
    (strategy_name : string) (close_all_amount : option Q) :
  engine_invariant st ->
  engine_invariant
    (fst (execute_trade place_order symbol SELL c strategy_name
            close_all_amount st)).
Proof.
  intros Hinv.
  destruct (execute_trade_frame place_order st symbol SELL c strategy_name
              close_all_amount) as (Hpk & Hamt & _).
  destruct (execute_trade_ledger place_order st symbol SELL c strategy_name
              close_all_amount) as [[Htr _]|(qty & r & q & _ & _ & _ & _ & Htr)].
  { now apply (engine_invariant_ext st). }
  destruct Hinv as (Hwf & Ha & Hb).
  split; [|split].
  - rewrite Htr. now apply close_all_wf.
  - now rewrite Hamt.
  - intros other peak Hlook. rewrite Hpk in Hlook. rewrite Htr.
    destruct (Hb other peak Hlook) as [Hp Hcost]. split; [exact Hp|].
    unfold ledger_after.
    destruct (String.eqb_spec other symbol) as [->|Hne].
    + rewrite open_trades_close_all_same.
      unfold total_cost_of, total_amount_of, sum_of. cbn [fold_left]. lra.
    + now rewrite open_trades_close_all_other.
Qed.

(** The update of the stored peak in the trailing-stop branch keeps the
    invariant, and leaves a peak that the current price does not exceed. *)
Lemma engine_invariant_peak_updated (st : bot) (symbol : string)
    (c avg profit : Q) :
  engine_invariant st ->
  open_trades symbol (trades st) <> [] ->
  avg_price_of (open_trades symbol (trades st)) = Return avg ->
  profit_pct_of c avg = Return profit ->
  ttp_activation_pct <= profit ->
  engine_invariant (peak_updated symbol avg c st)
  /\ (forall peak,
        peak_prices (peak_updated symbol avg c st) !! symbol = Some peak ->
        c <= peak /\ avg <= peak
        /\ (forall old, peak_prices st !! symbol = Some old -> old <= peak)).
Proof.
  intros (Hwf & Ha & Hb) Hne Havg Hprofit Hact.
  assert (Hnz : ~ avg == 0) by (apply pydiv_inv in Hprofit; tauto).
  destruct (avg_price_of_times_total _ avg (open_trades_wf symbol _ Hwf)
              Havg Hnz) as (Hpos & Htot & Hcost).
  destruct (profit_pct_sign c avg profit Hpos Hprofit) as [Hup _].
  specialize (Hup Hact).
  unfold peak_updated.
  destruct (Qltb (default avg (peak_prices st !! symbol)) c) eqn:Ecmp.
  - apply Qltb_true in Ecmp. split.
    + split; [exact Hwf|]. split; [exact Ha|].
      intros other peak Hlook. cbn in Hlook.
      destruct (String.eqb_spec symbol other) as [<-|Hother].
      * rewrite lookup_insert_eq in Hlook. injection Hlook as <-.
        split; [lra|]. cbn [trades add_event set_peaks]. rewrite Hcost.
        apply Qmult_le_compat_r; lra.
      * rewrite lookup_insert_ne in Hlook by exact Hother.
        exact (Hb other peak Hlook).
    + intros peak Hlook. cbn in Hlook. rewrite lookup_insert_eq in Hlook.
      injection Hlook as <-. split; [lra|]. split; [lra|].
      intros old Hold. rewrite Hold in Ecmp. cbn in Ecmp. lra.
  - apply Qltb_false in Ecmp. split; [exact (conj Hwf (conj Ha Hb))|].
    intros peak Hlook. rewrite Hlook in Ecmp. cbn in Ecmp.
    split; [exact Ecmp|]. split.
    + destruct (Hb symbol peak Hlook) as [Hp Hle]. rewrite Hcost in Hle.
      apply Qnot_lt_le. intros Hlt.
      assert (peak * total_amount_of (open_trades symbol (trades st))
              < avg * total_amount_of (open_trades symbol (trades st)))
        by (apply Qmult_lt_compat_r; assumption).
      lra.
    + intros old Hold. rewrite Hold in Hlook. injection Hlook as ->. lra.
Qed.

(** A step of the position manager keeps the invariant; and if it returns
    with no OPEN row left for the symbol, a peak that is still stored is
    not below the current price. *)
Lemma engine_invariant_manage (st : bot) (symbol : string) (c : Q) :
  engine_invariant st ->
  0 < c ->
  engine_invariant (fst (manage_open_positions place_order symbol c st))
  /\ (open_trades symbol
        (trades (fst (manage_open_positions place_order symbol c st))) = [] ->
      forall peak,
        peak_prices (fst (manage_open_positions place_order symbol c st))
          !! symbol = Some peak ->
        c <= peak).
Proof.
  intros Hinv Hc.
  destruct (manage_open_positions_spec place_order st symbol c)
    as [Hno|e Hne Havg|avg e Hne Havg Hprofit
       |avg profit Hne Havg Hprofit Hdca
       |avg profit Hne Havg Hprofit Hdca Hact
       |avg profit Hne Havg Hprofit Hdca Hact Hpk
       |avg profit pk e Hne Havg Hprofit Hdca Hact Hpk Hdd
       |avg profit pk dd Hne Havg Hprofit Hdca Hact Hpk Hdd Htrail
       |avg profit pk dd Hne Havg Hprofit Hdca Hact Hpk Hdd Htrail];
    cbn [fst].
  - (* no position: the peak is popped *)
    split.
    + destruct Hinv as (Hwf & Ha & Hb). split; [exact Hwf|].
      split; [exact Ha|].
      intros other peak Hlook. cbn in Hlook.
      destruct (String.eqb_spec symbol other) as [<-|Hother].
      * rewrite lookup_delete_eq in Hlook. discriminate.
      * rewrite lookup_delete_ne in Hlook by exact Hother.
        exact (Hb other peak Hlook).
    + intros _ peak Hlook. cbn in Hlook.
      rewrite lookup_delete_eq in Hlook. discriminate.
  - split; [exact Hinv|]. intros Hopen. contradiction.
  - split; [exact Hinv|]. intros Hopen. contradiction.
  - (* DCA *)
    assert (Hbelow : forall peak,
              peak_prices st !! symbol = Some peak -> c <= peak).
    { intros peak Hlook. destruct Hinv as (Hwf & Ha & Hb).
      assert (Hnz : ~ avg == 0) by (apply pydiv_inv in Hprofit; tauto).
      destruct (avg_price_of_times_total _ avg (open_trades_wf symbol _ Hwf)
                  Havg Hnz) as (Hpos & Htot & Hcost).
      destruct (profit_pct_sign c avg profit Hpos Hprofit) as [_ Hdown].
      specialize (Hdown Hdca).
      destruct (Hb symbol peak Hlook) as [Hp Hle]. rewrite Hcost in Hle.
      apply Qnot_lt_le. intros Hlt.
      assert (peak * total_amount_of (open_trades symbol (trades st))
              < avg * total_amount_of (open_trades symbol (trades st)))
        by (apply Qmult_lt_compat_r; [assumption|lra]).
      lra. }
    split.
    + apply engine_invariant_buy;
        [now apply engine_invariant_add_event|exact Hc|exact Hbelow].
    + intros _ peak Hlook.
      destruct (execute_trade_frame place_order
                  (add_event (mkEvent lv_info (MsgSmartDca symbol profit)) st)
                  symbol BUY c "DCA" None) as (Hpeaks & _).
      rewrite Hpeaks in Hlook. exact (Hbelow peak Hlook).
  - split; [exact Hinv|]. intros Hopen. contradiction.
  - destruct (engine_invariant_peak_updated st symbol c avg profit Hinv Hne
                Havg Hprofit Hact) as [Hinv1 _].
    split; [exact Hinv1|]. intros _ peak Hlook. congruence.
  - destruct (engine_invariant_peak_updated st symbol c avg profit Hinv Hne
                Havg Hprofit Hact) as [Hinv1 Hle].
    split; [exact Hinv1|]. intros _ peak Hlook. exact (proj1 (Hle peak Hlook)).
  - destruct (engine_invariant_peak_updated st symbol c avg profit Hinv Hne
                Havg Hprofit Hact) as [Hinv1 Hle].
    split; [exact Hinv1|]. intros _ peak Hlook. exact (proj1 (Hle peak Hlook)).
  - destruct (engine_invariant_peak_updated st symbol c avg profit Hinv Hne
                Havg Hprofit Hact) as [Hinv1 Hle].
    split.
    + apply engine_invariant_sell. now apply engine_invariant_add_event.
    + intros _ peak Hlook.
      destruct (execute_trade_frame place_order
                  (add_event (mkEvent lv_info (MsgTtpTriggered symbol))
                     (peak_updated symbol avg c st))
                  symbol SELL c "TTP"
                  (Some (total_amount_of (open_trades symbol (trades st)))))
        as (Hpeaks & _).
      rewrite Hpeaks in Hlook. exact (proj1 (Hle peak Hlook)).
Qed.

Lemma engine_invariant_process (st : bot) (symbol : string)
    (candles : outcome frame) :
  engine_invariant st ->
  (forall df, candles = Return df -> 0 < f_close df) ->
  engine_invariant (fst (process_symbol place_order symbol candles st)).
Proof.
  intros Hinv Hclose.
  unfold process_symbol, try_except.
  rewrite bind_lift.
  destruct candles as [df|e]; [|now apply engine_invariant_add_event].
  specialize (Hclose df eq_refl).
  unfold strategy_4_auto_ai. rewrite bind_bind, bind_log, bind_ret.
  set (choice := if Qltb 25 (f_adx14 df) then _ else _).
  set (st0 := add_event _ st).
  assert (Hinv0 : engine_invariant st0)
    by now apply engine_invariant_add_event.
  unfold manage_then_enter. unfold bind at 1.
  destruct (engine_invariant_manage st0 symbol (f_close df) Hinv0 Hclose)
    as [Hinv1 Hpeak].
  destruct (manage_open_positions place_order symbol (f_close df) st0)
    as [st1 [[]|e]]; cbn [fst] in *;
    [|now apply engine_invariant_add_event].
  unfold bind, check_open_position.
  destruct (open_trades symbol (trades st1)) as [|t l] eqn:Eopen;
    cbn [length Nat.ltb Nat.leb]; [|exact Hinv1].
  destruct (run_strategy (snd choice) df); try exact Hinv1.
  pose proof (engine_invariant_buy st1 symbol (f_close df) "Strategy_Auto"
                Hinv1 Hclose (Hpeak eq_refl)) as Hbuy.
  destruct (execute_trade place_order symbol BUY (f_close df)
              "Strategy_Auto" None st1) as [st2 [[]|e]]; cbn [fst] in *;
    [exact Hbuy|now apply engine_invariant_add_event].
Qed.

Lemma engine_invariant_set_trade_amount (st : bot) (new_amount : Q) :
  engine_invariant st ->
  engine_invariant (fst (set_trade_amount new_amount st)).
Proof.
  intros (Hwf & Ha & Hb). unfold set_trade_amount.
  destruct (Qltb new_amount 10) eqn:E; cbn [fst].
  - exact (conj Hwf (conj Ha Hb)).
  - apply Qltb_false in E. split; [exact Hwf|]. split; [cbn; lra|exact Hb].
Qed.

Lemma reachable_invariant (st : bot) :
  reachable place_order st -> engine_invariant st.
Proof.
  induction 1 as [db Hwf|st symbol c _ IH Hc|st symbol candles _ IH Hclose
                 |st a _ IH].
  - now apply engine_invariant_init.
  - now apply engine_invariant_manage.
  - now apply engine_invariant_process.
  - now apply engine_invariant_set_trade_amount.
Qed.

Lemma peak_updated_lookup (st : bot) (symbol : string) (avg c old : Q) :
  peak_prices st !! symbol = Some old ->
  exists new,
    peak_prices (peak_updated symbol avg c st) !! symbol = Some new
    /\ old <= new.
Proof.
  intros Hold. unfold peak_updated. rewrite Hold.
  change (default avg (Some old)) with old.
  destruct (Qltb old c) eqn:E.
  - exists c. split; [apply lookup_insert_eq|].
    apply Qltb_true in E. lra.
  - exists old. split; [exact Hold|lra].
Qed.

(** C9 (as amended).  In every reachable state of the engine and for every
    symbol: a step of the position manager that finds no OPEN row clears the
    stored peak; a stored peak is not below the average entry price of the
    OPEN rows; and a step of the position manager that finds OPEN rows
    keeps a stored peak and never lowers it. *)
Theorem peak_cleared_bounded_and_monotone
    (st : bot) (symbol : string) (c : Q) :
  let rows := open_trades symbol (trades st) in
  let st' := fst (manage_open_positions place_order symbol c st) in
  reachable place_order st ->
  (rows = [] -> peak_prices st' !! symbol = None)
  /\ (forall peak avg,
        peak_prices st !! symbol = Some peak ->
        avg_price_of rows = Return avg ->
        avg <= peak)
  /\ (rows <> [] ->
      forall peak,
        peak_prices st !! symbol = Some peak ->
        exists peak', peak_prices st' !! symbol = Some peak'
                      /\ peak <= peak').
Proof.
  intros rows st' Hreach.
  pose proof (reachable_invariant st Hreach) as (Hwf & _ & Hb).
  split; [|split].
  - intros Hrows. unfold st', manage_open_positions. fold rows.
    rewrite Hrows. cbn. apply lookup_delete_eq.
  - intros peak avg Hlook Havg.
    destruct (Hb symbol peak Hlook) as [Hp Hcost]. fold rows in Hcost.
    unfold avg_price_of in Havg.
    destruct (Qltb 0 (total_amount_of rows)) eqn:E.
    + apply Qltb_true in E. apply pydiv_inv in Havg as [_ ->].
      apply Qle_shift_div_r; assumption.
    + injection Havg as <-. lra.
  - intros Hrows peak Hlook. unfold st'.
    destruct (manage_open_positions_spec place_order st symbol c)
      as [Hno|e Hne Havg|avg e Hne Havg Hprofit
         |avg profit Hne Havg Hprofit Hdca
         |avg profit Hne Havg Hprofit Hdca Hact
         |avg profit Hne Havg Hprofit Hdca Hact Hpk
         |avg profit pk e Hne Havg Hprofit Hdca Hact Hpk Hdd
         |avg profit pk dd Hne Havg Hprofit Hdca Hact Hpk Hdd Htrail
         |avg profit pk dd Hne Havg Hprofit Hdca Hact Hpk Hdd Htrail];
      cbn [fst];
      try (exists peak; split; [exact Hlook|apply Qle_refl]);
      try (now apply peak_updated_lookup).
    + contradiction.
    + destruct (execute_trade_frame place_order
                  (add_event (mkEvent lv_info (MsgSmartDca symbol profit)) st)
                  symbol BUY c "DCA" None) as (Hpeaks & _).
      rewrite Hpeaks. exists peak. split; [exact Hlook|apply Qle_refl].
    + destruct (execute_trade_frame place_order
                  (add_event (mkEvent lv_info (MsgTtpTriggered symbol))
                     (peak_updated symbol avg c st))
                  symbol SELL c "TTP"
                  (Some (total_amount_of (open_trades symbol (trades st)))))
        as (Hpeaks & _).
      rewrite Hpeaks. now apply peak_updated_lookup.
Qed.

End Invariant.

Lemma filling_exchange_nonneg :
  forall sent o r q,
    filling_exchange sent o = Return r ->
    executedQty r = Some (Some q) ->
    0 <= q.
Proof.
  intros sent o r q [= <-]. discriminate.
Qed.

Lemma peak_cleared_bounded_and_monotone_witness :
  let st := fst (manage_open_positions filling_exchange "BTCUSDT" 106
                   (init [lot "BTCUSDT" 100 1])) in
  (open_trades "BTCUSDT" (trades st) = [] ->
   peak_prices (fst (manage_open_positions filling_exchange "BTCUSDT" 107 st))
     !! "BTCUSDT" = None)
  /\ (forall peak avg,
        peak_prices st !! "BTCUSDT" = Some peak ->
        avg_price_of (open_trades "BTCUSDT" (trades st)) = Return avg ->
        avg <= peak)
  /\ (open_trades "BTCUSDT" (trades st) <> [] ->
      forall peak,
        peak_prices st !! "BTCUSDT" = Some peak ->
        exists peak',
          peak_prices
            (fst (manage_open_positions filling_exchange "BTCUSDT" 107 st))
            !! "BTCUSDT" = Some peak'
          /\ peak <= peak').
Proof.
  apply (peak_cleared_bounded_and_monotone filling_exchange
           filling_exchange_nonneg
           (fst (manage_open_positions filling_exchange "BTCUSDT" 106
                   (init [lot "BTCUSDT" 100 1])))
           "BTCUSDT" 107).
  apply reach_manage; [|reflexivity].
  apply reach_init. repeat constructor; simpl; lra.
Defined.

(** C9 as the claim words it does not hold: the position manager run at
    104, 106 and 104.8 on one lot bought at 100 sells the lot in its third
    step, and the state it leaves has no OPEN row for the symbol while the
    peak 106 is still stored. *)
Lemma peak_outlives_closed_position :
  let s1 := fst (manage_open_positions filling_exchange "BTCUSDT" 104
                   (init [lot "BTCUSDT" 100 1])) in
  let s2 := fst (manage_open_positions filling_exchange "BTCUSDT" 106 s1) in
  let s3 := fst (manage_open_positions filling_exchange "BTCUSDT" 104.8 s2) in
  reachable filling_exchange s3
  /\ open_trades "BTCUSDT" (trades s3) = []
  /\ peak_prices s3 !! "BTCUSDT" = Some 106.
Proof.
  cbv zeta. split.
  - repeat (apply reach_manage; [|reflexivity]).
    apply reach_init. repeat constructor; simpl; lra.
  - vm_compute. split; reflexivity.
Qed.

(** * More about the engine *)

(** ** How [execute_trade] ends *)

Section ExecuteTradeOutcomes.

Variable place_order : list order -> order -> outcome order_res.

(** X1.  [execute_trade] lets one exception only escape: the division of
    line 182, which is outside the [try] block.  When it raises, the error
    is [ZeroDivisionError], the price is zero, the quantity was not a
    close-all amount of a SELL, and nothing has been logged, sent or
    written. *)
Theorem execute_trade_raises_only_on_zero_price
    (st st' : bot) (symbol : string) (sd : side) (price : Q)
    (strategy_name : string) (close_all_amount : option Q) (e : exn) :
  execute_trade place_order symbol sd price strategy_name close_all_amount st
  = (st', Raise e) ->
  e = ZeroDivisionError /\ price == 0 /\ st' = st
  /\ (sd = BUY \/ close_all_amount = None).
Proof.
  intros Hrun.
  pose proof (execute_trade_spec place_order st symbol sd price strategy_name
                close_all_amount) as Hpath.
  rewrite Hrun in Hpath.
  inversion Hpath as [e0 Hqty| | | |]; subst.
  unfold trade_qty in Hqty.
  assert (Hwhich : sd = BUY \/ close_all_amount = None).
  { destruct sd; [now left|].
    destruct close_all_amount; [discriminate|now right]. }
  assert (Hdiv : exists a, pydiv a price = Raise e).
  { destruct sd, close_all_amount; try discriminate;
      injection Hqty as Hqty; eauto. }
  destruct Hdiv as [a Hdiv]. unfold pydiv in Hdiv.
  destruct (Qeq_bool price 0) eqn:E; [|discriminate].
  apply Qeq_bool_iff in E. injection Hdiv as <-.
  repeat split; assumption.
Qed.



(** X3.  A filled BUY appends exactly one OPEN row to the ledger and changes
    no other row: the row carries the price of the call, the strategy name,
    the order id of the answer (['TEST_ORDER_ID'] when the answer has none)
    and the filled quantity of the answer (the requested quantity when the
    answer has none). *)
Theorem filled_buy_appends_one_open_row
    (st : bot) (symbol : string) (price : Q) (strategy_name : string)
    (close_all_amount : option Q) (qty executed_qty : Q) (r : order_res) :
  let st' := fst (execute_trade place_order symbol BUY price strategy_name
                    close_all_amount st) in
  trade_qty BUY price close_all_amount st = (st, Return qty) ->
  10 <= qty * price ->
  place_order (orders st) (mkOrder symbol qty BUY) = Return r ->
  executed_qty_of r qty = Return executed_qty ->
  trades st' =
    trades st ++ [mkTrade symbol (order_id_of r) BUY price executed_qty
                          strategy_name OPEN]
  /\ (executedQty r = None -> executed_qty = qty)
  /\ (orderId r = None -> order_id_of r = "TEST_ORDER_ID"%string)
  /\ open_trades symbol (trades st') =
     open_trades symbol (trades st)
     ++ [mkTrade symbol (order_id_of r) BUY price executed_qty
                 strategy_name OPEN].
Proof.
  intros st' Hqty Hbig Hgw Hex.
  assert (Hst' : trades st' =
    trades st ++ [mkTrade symbol (order_id_of r) BUY price executed_qty
                          strategy_name OPEN]).
  { unfold st', execute_trade, bind. rewrite Hqty.
    apply Qltb_false in Hbig. rewrite Hbig.
    unfold try_except, bind, call_place_order, lift. rewrite Hgw, Hex.
    reflexivity. }
  split; [exact Hst'|]. split; [|split].
  - intros Hnone. unfold executed_qty_of in Hex. rewrite Hnone in Hex.
    congruence.
  - intros Hnone. unfold order_id_of. now rewrite Hnone.
  - rewrite Hst'.
    apply (open_trades_after_buy symbol price strategy_name (order_id_of r)
             executed_qty (trades st)).
Qed.

(** X4.  When the exchange accepts the order but reports a filled quantity
    that [float] cannot read, the order has been sent and yet no row is
    written: the ledger is unchanged, one error event is logged and the call
    returns normally. *)
Theorem unreadable_fill_is_sent_but_not_recorded
    (st : bot) (symbol : string) (sd : side) (price : Q)
    (strategy_name : string) (close_all_amount : option Q) (qty : Q)
    (r : order_res) :
  trade_qty sd price close_all_amount st = (st, Return qty) ->
  10 <= qty * price ->
  place_order (orders st) (mkOrder symbol qty sd) = Return r ->
  executedQty r = Some None ->
  exists st',
    execute_trade place_order symbol sd price strategy_name
                  close_all_amount st = (st', Return tt)
    /\ orders st' = orders st ++ [mkOrder symbol qty sd]
    /\ trades st' = trades st
    /\ events st' =
       events st ++ [mkEvent lv_error (MsgOrderError symbol ValueError)].
Proof.
  intros Hqty Hbig Hgw Hbad.
  eexists. unfold execute_trade, bind. rewrite Hqty.
  apply Qltb_false in Hbig. rewrite Hbig.
  unfold try_except, bind, call_place_order, lift, executed_qty_of.
  rewrite Hgw, Hbad. repeat split.
Qed.

End ExecuteTradeOutcomes.

Lemma execute_trade_raises_only_on_zero_price_witness :
  ZeroDivisionError = ZeroDivisionError /\ 0 == 0 /\ init [] = init []
  /\ (BUY = BUY \/ @None Q = None).
Proof.
  apply (execute_trade_raises_only_on_zero_price filling_exchange (init [])
           (init []) "BTCUSDT" BUY 0 "DCA" None ZeroDivisionError).
  reflexivity.
Defined.


Lemma filled_buy_appends_one_open_row_witness :
  trades (fst (execute_trade partial_fill_exchange "BTCUSDT" BUY 100
                 "Strategy_Auto" None (init [])))
  = trades (init [])
    ++ [mkTrade "BTCUSDT"
          (order_id_of (mkOrderRes None (Some (Some 0.1)))) BUY 100 0.1
          "Strategy_Auto" OPEN]
  /\ (executedQty (mkOrderRes None (Some (Some 0.1))) = None ->
      0.1 = 15 / 100)
  /\ (orderId (mkOrderRes None (Some (Some 0.1))) = None ->
      order_id_of (mkOrderRes None (Some (Some 0.1)))
      = "TEST_ORDER_ID"%string)
  /\ open_trades "BTCUSDT"
       (trades (fst (execute_trade partial_fill_exchange "BTCUSDT" BUY 100
                       "Strategy_Auto" None (init []))))
     = open_trades "BTCUSDT" (trades (init []))
       ++ [mkTrade "BTCUSDT"
             (order_id_of (mkOrderRes None (Some (Some 0.1)))) BUY 100 0.1
             "Strategy_Auto" OPEN].
Proof.
  apply (filled_buy_appends_one_open_row partial_fill_exchange (init [])
           "BTCUSDT" 100 "Strategy_Auto" None (15 / 100) 0.1
           (mkOrderRes None (Some (Some 0.1)))).
  - reflexivity.
  - vm_compute. discriminate.
  - reflexivity.
  - reflexivity.
Defined.

Lemma unreadable_fill_is_sent_but_not_recorded_witness :
  exists st',
    execute_trade garbled_exchange "BTCUSDT" BUY 100 "Strategy_Auto" None
      (init []) = (st', Return tt)
    /\ orders st' = orders (init []) ++ [mkOrder "BTCUSDT" (15 / 100) BUY]
    /\ trades st' = trades (init [])
    /\ events st' =
       events (init [])
       ++ [mkEvent lv_error (MsgOrderError "BTCUSDT" ValueError)].
Proof.
  apply (unreadable_fill_is_sent_but_not_recorded garbled_exchange (init [])
           "BTCUSDT" BUY 100 "Strategy_Auto" None (15 / 100)
           (mkOrderRes (Some "4212"%string) (Some None))).
  - reflexivity.
  - vm_compute. discriminate.
  - reflexivity.
  - reflexivity.
Defined.

(** ** What a pass of the loop may change *)

Lemma touches_only_refl (symbol : string) (st : bot) :
  touches_only symbol st st.
Proof.
  repeat split; try reflexivity.
  - exists []. now rewrite app_nil_r.
  - exists []. split; [now rewrite app_nil_r|constructor].
Qed.

Lemma touches_only_trans (symbol : string) (a b c : bot) :
  touches_only symbol a b -> touches_only symbol b c ->
  touches_only symbol a c.
Proof.
  intros (Ha & Hp & Hr & [ev Hev] & [od [Hod Hfo]])
         (Ha' & Hp' & Hr' & [ev' Hev'] & [od' [Hod' Hfo']]).
  split; [congruence|]. split; [|split; [|split]].
  - intros other Hne. rewrite (Hp' other Hne). now apply Hp.
  - intros other Hne. rewrite (Hr' other Hne). now apply Hr.
  - exists (ev ++ ev'). rewrite Hev', Hev. now rewrite app_assoc.
  - exists (od ++ od'). split.
    + rewrite Hod', Hod. now rewrite app_assoc.
    + apply Forall_app. now split.
Qed.

Lemma touches_only_add_event (symbol : string) (ev : event) (st : bot) :
  touches_only symbol st (add_event ev st).
Proof.
  repeat split; try reflexivity.
  - now exists [ev].
  - exists []. split; [cbn; now rewrite app_nil_r|constructor].
Qed.

Lemma rows_of_app (symbol : string) (db1 db2 : list trade) :
  rows_of symbol (db1 ++ db2) = rows_of symbol db1 ++ rows_of symbol db2.
Proof. unfold rows_of. apply List.filter_app. Qed.

Lemma rows_of_close_all_other (symbol other : string) (db : list trade) :
  other <> symbol ->
  rows_of other (close_all symbol db) = rows_of other db.
Proof.
  intros Hne. unfold rows_of, close_all.
  induction db as [|t db IH]; [reflexivity|].
  cbn [map List.filter]. rewrite IH.
  unfold close_trade, is_open.
  destruct (String.eqb_spec (t_symbol t) symbol) as [Hs|Hs];
    cbn [andb]; [|reflexivity].
  destruct (t_status t); [|reflexivity].
  cbn [t_symbol].
  destruct (String.eqb_spec (t_symbol t) other) as [Ho|Ho];
    [congruence|reflexivity].
Qed.

Lemma row_advances_trans (a b c : trade) :
  row_advances a b -> row_advances b c -> row_advances a c.
Proof.
  intros [->| ->] [->| ->]; cbn; (now left) || (now right).
Qed.

Lemma row_advances_side (a b : trade) :
  row_advances a b -> t_side b = t_side a.
Proof. intros [->| ->]; reflexivity. Qed.

Lemma row_advances_closed (a b : trade) :
  row_advances a b -> t_status a = CLOSED -> b = a.
Proof.
  intros [->| ->] H; [reflexivity|]. destruct a; cbn in *. now subst.
Qed.

Lemma Forall2_row_advances_refl (db : list trade) :
  Forall2 row_advances db db.
Proof. induction db; constructor; [now left|assumption]. Qed.

Lemma ledger_extends_refl (db : list trade) : ledger_extends db db.
Proof.
  exists db, []. split; [now rewrite app_nil_r|].
  split; [apply Forall2_row_advances_refl|constructor].
Qed.

Lemma Forall2_row_advances_trans (a b c : list trade) :
  Forall2 row_advances a b -> Forall2 row_advances b c ->
  Forall2 row_advances a c.
Proof.
  intros Hab. revert c. induction Hab as [|x y l l' Hxy _ IH]; intros c Hbc.
  - inversion Hbc. constructor.
  - inversion Hbc as [|? z ? l'' Hyz Hrest]; subst. constructor.
    + exact (row_advances_trans _ _ _ Hxy Hyz).
    + now apply IH.
Qed.

Lemma ledger_extends_trans (a b c : list trade) :
  ledger_extends a b -> ledger_extends b c -> ledger_extends a c.
Proof.
  intros (k & ad & -> & Hk & Had) (k' & ad' & -> & Hk' & Had').
  apply Forall2_app_inv_l in Hk' as (k1 & k2 & Hk1 & Hk2 & ->).
  exists k1, (k2 ++ ad'). split; [now rewrite app_assoc|]. split.
  - exact (Forall2_row_advances_trans _ _ _ Hk Hk1).
  - apply Forall_app. split; [|exact Had'].
    clear - Had Hk2. induction Hk2 as [|x y l l' Hxy _ IH]; [constructor|].
    inversion Had; subst. constructor; [|now apply IH].
    rewrite (row_advances_side _ _ Hxy). assumption.
Qed.

Lemma ledger_extends_close_all (symbol : string) (db : list trade) :
  ledger_extends db (close_all symbol db).
Proof.
  exists (close_all symbol db), []. split; [now rewrite app_nil_r|].
  split; [|constructor].
  unfold close_all. induction db as [|t db IH]; cbn [map]; constructor;
    [|exact IH].
  unfold close_trade. destruct (is_open symbol t); [now right|now left].
Qed.

(** The rows that were CLOSED are found again at the same place. *)
Lemma ledger_extends_closed_row (db db' : list trade) (i : nat) (t : trade) :
  ledger_extends db db' ->
  nth_error db i = Some t ->
  t_status t = CLOSED ->
  nth_error db' i = Some t.
Proof.
  intros (k & ad & -> & Hk & _) Hnth Hclosed.
  revert i Hnth. induction Hk as [|x y l l' Hxy _ IH]; intros i Hnth.
  - destruct i; discriminate.
  - destruct i as [|i]; cbn in *.
    + injection Hnth as ->. now rewrite (row_advances_closed _ _ Hxy Hclosed).
    + now apply IH.
Qed.

Lemma ledger_extends_length (db db' : list trade) :
  ledger_extends db db' -> (length db <= length db')%nat.
Proof.
  intros (k & ad & -> & Hk & _). rewrite length_app.
  apply Forall2_length in Hk. lia.
Qed.

Section Passes.

Variable place_order : list order -> order -> outcome order_res.

Lemma execute_trade_touches_only (st : bot) (symbol : string) (sd : side)
    (price : Q) (strategy_name : string) (close_all_amount : option Q) :
  touches_only symbol st
    (fst (execute_trade place_order symbol sd price strategy_name
            close_all_amount st)).
Proof.
  destruct (execute_trade_spec place_order st symbol sd price strategy_name
              close_all_amount) as [e|qty|qty e|qty r e|qty r q]; cbn [fst].
  - apply touches_only_refl.
  - apply touches_only_add_event.
  - repeat split; try reflexivity.
    + now eexists [_].
    + exists [mkOrder symbol qty sd]. split; [reflexivity|].
      now repeat constructor.
  - repeat split; try reflexivity.
    + now eexists [_].
    + exists [mkOrder symbol qty sd]. split; [reflexivity|].
      now repeat constructor.
  - split; [reflexivity|]. split; [reflexivity|]. split; [|split].
    + intros other Hne. cbn [trades add_event set_trades add_order].
      destruct sd; cbn [ledger_after].
      * rewrite rows_of_app. unfold rows_of at 2.
        cbn [List.filter t_symbol].
        destruct (String.eqb_spec symbol other) as [E|E];
          [congruence|apply app_nil_r].
      * now apply rows_of_close_all_other.
    + now eexists [_].
    + exists [mkOrder symbol qty sd]. split; [reflexivity|].
      now repeat constructor.
Qed.

Lemma execute_trade_ledger_extends (st : bot) (symbol : string) (sd : side)
    (price : Q) (strategy_name : string) (close_all_amount : option Q) :
  ledger_extends (trades st)
    (trades (fst (execute_trade place_order symbol sd price strategy_name
                    close_all_amount st))).
Proof.
  destruct (execute_trade_spec place_order st symbol sd price strategy_name
              close_all_amount) as [e|qty|qty e|qty r e|qty r q]; cbn [fst];
    try apply ledger_extends_refl.
  cbn [trades add_event set_trades add_order].
  destruct sd; cbn [ledger_after].
  - eexists (trades st), [_]. split; [reflexivity|].
    split; [apply Forall2_row_advances_refl|now repeat constructor].
  - apply ledger_extends_close_all.
Qed.

Lemma peak_updated_touches_only (symbol : string) (avg c : Q) (st : bot) :
  touches_only symbol st (peak_updated symbol avg c st).
Proof.
  unfold peak_updated.
  destruct (Qltb (default avg (peak_prices st !! symbol)) c);
    [|apply touches_only_refl].
  split; [reflexivity|]. split; [|split; [|split]].
  - intros other Hne. cbn. now rewrite lookup_insert_ne.
  - reflexivity.
  - now eexists [_].
  - exists []. split; [cbn; now rewrite app_nil_r|constructor].
Qed.

Lemma manage_open_positions_touches_only
    (st : bot) (symbol : string) (c : Q) :
  touches_only symbol st (fst (manage_open_positions place_order symbol c st)).
Proof.
  destruct (manage_open_positions_spec place_order st symbol c); cbn [fst];
    try apply touches_only_refl;
    try apply peak_updated_touches_only.
  - split; [reflexivity|]. split; [|split; [|split]].
    + intros other Hne. cbn. now rewrite lookup_delete_ne.
    + reflexivity.
    + exists []. cbn. now rewrite app_nil_r.
    + exists []. split; [cbn; now rewrite app_nil_r|constructor].
  - eapply touches_only_trans; [apply touches_only_add_event|].
    apply execute_trade_touches_only.
  - eapply touches_only_trans; [apply peak_updated_touches_only|].
    eapply touches_only_trans; [apply touches_only_add_event|].
    apply execute_trade_touches_only.
Qed.

Lemma manage_open_positions_ledger_extends
    (st : bot) (symbol : string) (c : Q) :
  ledger_extends (trades st)
    (trades (fst (manage_open_positions place_order symbol c st))).
Proof.
  destruct (manage_open_positions_spec place_order st symbol c); cbn [fst];
    try apply ledger_extends_refl;
    try (rewrite (proj1 (peak_updated_frame symbol avg c st));
         apply ledger_extends_refl).
  - apply (execute_trade_ledger_extends
             (add_event (mkEvent lv_info (MsgSmartDca symbol profit)) st)).
  - pose proof (execute_trade_ledger_extends
                  (add_event (mkEvent lv_info (MsgTtpTriggered symbol))
                     (peak_updated symbol avg c st))
                  symbol SELL c "TTP"
                  (Some (total_amount_of (open_trades symbol (trades st)))))
      as Hsell.
    cbn [trades add_event] in Hsell.
    now rewrite (proj1 (peak_updated_frame symbol avg c st)) in Hsell.
Qed.

(** A relation between states that holds across logging, the position
    manager and an entry holds across the loop body. *)
Lemma process_symbol_preserves (R : bot -> bot -> Prop) (symbol : string)
    (candles : outcome frame) (st : bot) :
  (forall s, R s s) ->
  (forall a b c, R a b -> R b c -> R a c) ->
  (forall ev s, R s (add_event ev s)) ->
  (forall s c, R s (fst (manage_open_positions place_order symbol c s))) ->
  (forall s p name,
      R s (fst (execute_trade place_order symbol BUY p name None s))) ->
  R st (fst (process_symbol place_order symbol candles st)).
Proof.
  intros Hrefl Htrans Hev Hpm Het.
  unfold process_symbol, try_except. rewrite bind_lift.
  destruct candles as [df|e]; [|apply Hev].
  unfold strategy_4_auto_ai. rewrite bind_bind, bind_log, bind_ret.
  set (choice := if Qltb 25 (f_adx14 df) then _ else _).
  set (st0 := add_event _ st).
  apply (Htrans st st0); [apply Hev|].
  unfold manage_then_enter. unfold bind at 1.
  pose proof (Hpm st0 (f_close df)) as H1.
  destruct (manage_open_positions place_order symbol (f_close df) st0)
    as [st1 [[]|e]]; cbn [fst] in *.
  2:{ apply (Htrans st0 st1); [exact H1|apply Hev]. }
  apply (Htrans st0 st1); [exact H1|].
  unfold bind, check_open_position.
  destruct (Nat.ltb 0 (length (open_trades symbol (trades st1))));
    [apply Hrefl|].
  destruct (run_strategy (snd choice) df); try apply Hrefl.
  pose proof (Het st1 (f_close df) "Strategy_Auto"%string) as H2.
  destruct (execute_trade place_order symbol BUY (f_close df)
              "Strategy_Auto" None st1) as [st2 [[]|e]]; cbn [fst] in *;
    [exact H2|].
  apply (Htrans st1 st2); [exact H2|apply Hev].
Qed.

Lemma process_symbol_touches_only_its_symbol_aux
    (st : bot) (symbol : string) (candles : outcome frame) :
  touches_only symbol st
    (fst (process_symbol place_order symbol candles st)).
Proof.
  apply (process_symbol_preserves (touches_only symbol)).
  - apply touches_only_refl.
  - apply touches_only_trans.
  - intros ev s. apply touches_only_add_event.
  - intros s c. apply manage_open_positions_touches_only.
  - intros s p name. apply execute_trade_touches_only.
Qed.

(** X5.  A pass of the loop body for one symbol changes nothing that
    belongs to another symbol: the stored peaks and the ledger rows of every
    other symbol are as before, every order it sends is for its own symbol,
    and the amount per trade is unchanged. *)
Theorem process_symbol_touches_only_its_symbol
    (st : bot) (symbol : string) (candles : outcome frame) :
  touches_only symbol st
    (fst (process_symbol place_order symbol candles st)).
Proof. apply process_symbol_touches_only_its_symbol_aux. Qed.

Lemma process_symbol_returns (st : bot) (symbol : string)
    (candles : outcome frame) :
  snd (process_symbol place_order symbol candles st) = Return tt.
Proof.
  unfold process_symbol, try_except.
  destruct ((df <- lift candles ;; choice <- strategy_4_auto_ai df ;;
             manage_then_enter place_order symbol df (snd choice)) st)
    as [st1 [[]|e]]; reflexivity.
Qed.

Lemma cycle_returns (l : list string) (feed : string -> outcome frame)
    (st : bot) :
  snd (cycle place_order l feed st) = Return tt.
Proof.
  revert st. induction l as [|symbol l IH]; intros st; [reflexivity|].
  cbn [cycle]. unfold bind.
  pose proof (process_symbol_returns st symbol (feed symbol)) as H.
  destruct (process_symbol place_order symbol (feed symbol) st)
    as [st1 r]. cbn in H. subst r. apply IH.
Qed.

Lemma cycle_ledger_extends (l : list string) (feed : string -> outcome frame)
    (st : bot) :
  ledger_extends (trades st) (trades (fst (cycle place_order l feed st))).
Proof.
  revert st. induction l as [|symbol l IH]; intros st;
    [apply ledger_extends_refl|].
  cbn [cycle]. unfold bind.
  pose proof (process_symbol_returns st symbol (feed symbol)) as Hr.
  assert (Hl : ledger_extends (trades st)
            (trades (fst (process_symbol place_order symbol (feed symbol) st)))).
  { apply (process_symbol_preserves
             (fun a b => ledger_extends (trades a) (trades b))).
    - intros s. apply ledger_extends_refl.
    - intros a b c. apply ledger_extends_trans.
    - intros ev s. apply ledger_extends_refl.
    - intros s c. apply manage_open_positions_ledger_extends.
    - intros s p name. apply execute_trade_ledger_extends. }
  destruct (process_symbol place_order symbol (feed symbol) st)
    as [st1 r]. cbn in Hr, Hl. subst r.
  exact (ledger_extends_trans _ _ _ Hl (IH st1)).
Qed.

(** X6.  However many cycles [run] goes through, whatever the candles and
    the answers of the exchange, it returns normally: no exception of the
    loop body ends the loop. *)
Theorem run_never_raises
    (feeds : list (string -> outcome frame)) (st : bot) :
  snd (run place_order feeds st) = Return tt.
Proof.
  unfold run. rewrite bind_log.
  generalize (add_event (mkEvent lv_info MsgStarted) st). clear st.
  induction feeds as [|feed feeds IH]; intros st; [reflexivity|].
  cbn [run_cycles]. unfold bind.
  pose proof (cycle_returns symbols feed st) as H.
  destruct (cycle place_order symbols feed st) as [st1 r].
  cbn in H. subst r. apply IH.
Qed.

(** X7.  The ledger is a history: across any number of cycles of [run] no
    row is deleted or moved, a row changes only from OPEN to CLOSED, a row
    that is CLOSED stays exactly as it is, and every new row is a BUY. *)
Theorem run_keeps_the_history
    (feeds : list (string -> outcome frame)) (st : bot) :
  let st' := fst (run place_order feeds st) in
  ledger_extends (trades st) (trades st')
  /\ (length (trades st) <= length (trades st'))%nat
  /\ (forall i t,
        nth_error (trades st) i = Some t ->
        t_status t = CLOSED ->
        nth_error (trades st') i = Some t).
Proof.
  intros st'.
  assert (H : ledger_extends (trades st) (trades st')).
  { unfold st', run. rewrite bind_log.
    change (trades st)
      with (trades (add_event (mkEvent lv_info MsgStarted) st)).
    generalize (add_event (mkEvent lv_info MsgStarted) st).
    induction feeds as [|feed feeds IH]; intros s;
      [apply ledger_extends_refl|].
    cbn [run_cycles]. unfold bind.
    pose proof (cycle_returns symbols feed s) as Hr.
    pose proof (cycle_ledger_extends symbols feed s) as Hl.
    destruct (cycle place_order symbols feed s) as [s1 r].
    cbn in Hr, Hl. subst r.
    exact (ledger_extends_trans _ _ _ Hl (IH s1)). }
  split; [exact H|]. split; [now apply ledger_extends_length|].
  intros i t. now apply ledger_extends_closed_row.
Qed.

End Passes.

(** ** Reachable states *)

Section Reachable.

Variable place_order : list order -> order -> outcome order_res.


Hypothesis executed_qty_nonneg :
  forall sent o r q,
    place_order sent o = Return r ->
    executedQty r = Some (Some q) ->
    0 <= q.


End Reachable.



(** ** The thresholds of the position manager *)


Lemma Qdiv_ge_iff (x a k : Q) : 0 < a -> (k <= x / a <-> k * a <= x).
Proof.
  intros Ha. split; intros H.
  - apply Qnot_lt_le. intros Hlt.
    assert (x / a < k) by (apply Qlt_shift_div_r; assumption).
    lra.
  - now apply Qle_shift_div_l.
Qed.


Section Thresholds.

Variable place_order : list order -> order -> outcome order_res.

(** The trailing-stop branch once the peak update is done. *)
Lemma trailing_branch_after_update
    (st : bot) (symbol : string) (c avg profit : Q) :
  open_trades symbol (trades st) <> [] ->
  avg_price_of (open_trades symbol (trades st)) = Return avg ->
  profit_pct_of c avg = Return profit ->
  - dca_drop_pct < profit ->
  ttp_activation_pct <= profit ->
  manage_open_positions place_order symbol c st =
  (peak <- peak_item symbol ;;
   drawdown_from_peak <- lift (pydiv (peak - c) peak) ;;
   if Qleb ttp_trail_pct drawdown_from_peak
   then log (MsgTtpTriggered symbol) lv_info ;;;
        execute_trade place_order symbol SELL c "TTP"
          (Some (total_amount_of (open_trades symbol (trades st))))
   else ret tt) (peak_updated symbol avg c st).
Proof.
  intros Hne Havg Hprofit Hdca Hact.
  unfold manage_open_positions.
  destruct (open_trades symbol (trades st)) as [|t l] eqn:Erows;
    [contradiction|].
  rewrite bind_lift, Havg, bind_lift, Hprofit.
  apply Qleb_false in Hdca. apply Qleb_true in Hact. rewrite Hdca, Hact.
  unfold peak_updated, bind, get_peak, store_peak, log, ret.
  destruct (Qltb (default avg (peak_prices st !! symbol)) c); reflexivity.
Qed.

(** X10.  A price above the peak known so far (the stored peak, or the
    average price when none is stored) never triggers the SELL: in the
    trailing-stop branch the manager stores the price as the new peak, logs
    it, and returns without sending an order.  In particular the step that
    first activates the trailing stop of a position does not sell. *)
Theorem new_high_never_sells
    (st : bot) (symbol : string) (c avg profit : Q) :
  open_trades symbol (trades st) <> [] ->
  avg_price_of (open_trades symbol (trades st)) = Return avg ->
  profit_pct_of c avg = Return profit ->
  ttp_activation_pct <= profit ->
  0 < c ->
  default avg (peak_prices st !! symbol) < c ->
  manage_open_positions place_order symbol c st =
  (add_event (mkEvent lv_info (MsgNewPeak symbol c))
     (set_peaks (insert symbol c) st), Return tt).
Proof.
  intros Hne Havg Hprofit Hact Hc Hhigh.
  rewrite (trailing_branch_after_update st symbol c avg profit Hne Havg
             Hprofit); [|unfold ttp_activation_pct, dca_drop_pct in *; lra
                       |exact Hact].
  unfold peak_updated. apply Qltb_true in Hhigh. rewrite Hhigh.
  unfold bind, peak_item. cbn [peak_prices add_event set_peaks].
  rewrite lookup_insert_eq. unfold lift.
  rewrite pydiv_nonzero by lra.
  assert (Hdd : Qleb ttp_trail_pct ((c - c) / c) = false).
  { apply Qleb_false. assert (E : (c - c) / c == 0) by (field; lra).
    rewrite E. reflexivity. }
  now rewrite Hdd.
Qed.


End Thresholds.

Lemma new_high_never_sells_witness :
  manage_open_positions filling_exchange "BTCUSDT" 104
    (init [lot "BTCUSDT" 100 1]) =
  (add_event (mkEvent lv_info (MsgNewPeak "BTCUSDT" 104))
     (set_peaks (insert "BTCUSDT"%string 104) (init [lot "BTCUSDT" 100 1])),
   Return tt).
Proof.
  apply (new_high_never_sells filling_exchange (init [lot "BTCUSDT" 100 1])
           "BTCUSDT" 104 100 ((104 - 100) / 100)).
  - discriminate.
  - reflexivity.
  - reflexivity.
  - vm_compute. discriminate.
  - reflexivity.
  - reflexivity.
Defined.


(** ** Averaging down *)

Section AveragingDown.

Variable place_order : list order -> order -> outcome order_res.



End AveragingDown.


(** ** The orders of one pass of the loop body *)

Section OrdersOfAPass.

Variable place_order : list order -> order -> outcome order_res.

Lemma execute_trade_orders (st : bot) (symbol : string) (sd : side)
    (price : Q) (strategy_name : string) (close_all_amount : option Q) :
  let st' := fst (execute_trade place_order symbol sd price strategy_name
                    close_all_amount st) in
  orders st' = orders st
  \/ exists qty,
       trade_qty sd price close_all_amount st = (st, Return qty)
       /\ orders st' = orders st ++ [mkOrder symbol qty sd].
Proof.
  intros st'. subst st'.
  destruct (execute_trade_spec place_order st symbol sd price strategy_name
              close_all_amount) as [e|qty|qty e|qty r e|qty r q]; cbn [fst];
    try (now left); right; exists qty; now split.
Qed.

(** The orders of a step of the position manager: none, the DCA BUY, or
    the SELL of the whole position. *)
Lemma manage_open_positions_orders (st : bot) (symbol : string) (c : Q) :
  let rows := open_trades symbol (trades st) in
  let st1 := fst (manage_open_positions place_order symbol c st) in
  exists new_orders,
    orders st1 = orders st ++ new_orders
    /\ (new_orders = []
        \/ (rows <> [] /\ open_trades symbol (trades st1) <> []
            /\ exists q, new_orders = [mkOrder symbol q BUY])
        \/ (rows <> []
            /\ new_orders = [mkOrder symbol (total_amount_of rows) SELL])).
Proof.
  intros rows st1. subst rows st1.
  destruct (manage_open_positions_spec place_order st symbol c)
    as [Hno|e Hne Havg|avg e Hne Havg Hprofit
       |avg profit Hne Havg Hprofit Hdca
       |avg profit Hne Havg Hprofit Hdca Hact
       |avg profit Hne Havg Hprofit Hdca Hact Hpk
       |avg profit pk e Hne Havg Hprofit Hdca Hact Hpk Hdd
       |avg profit pk dd Hne Havg Hprofit Hdca Hact Hpk Hdd Htrail
       |avg profit pk dd Hne Havg Hprofit Hdca Hact Hpk Hdd Htrail];
    cbn [fst];
    try (exists []; split; [cbn; now rewrite app_nil_r|now left]);
    try (exists []; split;
         [rewrite (proj1 (proj2 (peak_updated_frame symbol avg c st)));
          now rewrite app_nil_r|now left]).
  - (* DCA *)
    set (s0 := add_event (mkEvent lv_info (MsgSmartDca symbol profit)) st).
    destruct (execute_trade_orders s0 symbol BUY c "DCA" None)
      as [Ho|(q & _ & Ho)].
    + exists []. split; [rewrite Ho; cbn; now rewrite app_nil_r|now left].
    + exists [mkOrder symbol q BUY]. split; [exact Ho|].
      right; left. split; [exact Hne|]. split; [|now exists q].
      destruct (execute_trade_ledger place_order s0 symbol BUY c "DCA" None)
        as [[Htr _]|(q' & r & x & _ & _ & _ & _ & Htr)]; rewrite Htr.
      * exact Hne.
      * rewrite open_trades_after_buy. cbn [trades add_event s0].
        destruct (open_trades symbol (trades st)); discriminate.
  - (* take profit *)
    set (s0 := add_event (mkEvent lv_info (MsgTtpTriggered symbol))
                 (peak_updated symbol avg c st)).
    assert (Hs0 : orders s0 = orders st)
      by apply (proj1 (proj2 (peak_updated_frame symbol avg c st))).
    destruct (execute_trade_orders s0 symbol SELL c "TTP"
                (Some (total_amount_of (open_trades symbol (trades st)))))
      as [Ho|(q & Hq & Ho)].
    + exists []. split; [rewrite Ho, Hs0; now rewrite app_nil_r|now left].
    + unfold trade_qty in Hq. injection Hq as <-.
      eexists. split; [rewrite Ho, Hs0; reflexivity|].
      right; right. now split.
Qed.

(** X13.  The orders one pass of the loop body sends for its symbol are,
    in this order, at most one SELL and at most one BUY.  A SELL is sent
    only when the symbol has OPEN rows at the start of the pass, and its
    quantity is the total amount of those rows, never a part of it; a BUY
    that follows a SELL is the entry into a new position. *)
Theorem orders_of_one_pass
    (st : bot) (symbol : string) (candles : outcome frame) :
  let rows := open_trades symbol (trades st) in
  let st' := fst (process_symbol place_order symbol candles st) in
  exists new_orders,
    orders st' = orders st ++ new_orders
    /\ (new_orders = []
        \/ (exists q, new_orders = [mkOrder symbol q BUY])
        \/ (rows <> []
            /\ (new_orders = [mkOrder symbol (total_amount_of rows) SELL]
                \/ exists q,
                     new_orders = [mkOrder symbol (total_amount_of rows) SELL;
                                   mkOrder symbol q BUY]))).
Proof.
  intros rows st'. subst rows st'.
  unfold process_symbol, try_except. rewrite bind_lift.
  destruct candles as [df|e].
  2:{ exists []. split; [cbn; now rewrite app_nil_r|now left]. }
  unfold strategy_4_auto_ai. rewrite bind_bind, bind_log, bind_ret.
  set (choice := if Qltb 25 (f_adx14 df) then _ else _).
  set (st0 := add_event _ st).
  change (orders st) with (orders st0).
  change (trades st) with (trades st0).
  generalize st0. clear st0 st. intros st.
  unfold manage_then_enter. unfold bind at 1.
  destruct (manage_open_positions_orders st symbol (f_close df))
    as (l1 & Ho1 & Hl1).
  destruct (manage_open_positions place_order symbol (f_close df) st)
    as [st1 [[]|e]]; cbn [fst] in *.
  2:{ exists l1. split; [exact Ho1|].
      destruct Hl1 as [->|[(Hne & _ & q & ->)|(Hne & ->)]];
        [now left|right; left; now exists q|right; right; split; auto]. }
  unfold bind, check_open_position.
  destruct (open_trades symbol (trades st1)) as [|t l] eqn:Eopen;
    cbn [length Nat.ltb Nat.leb].
  2:{ exists l1. split; [exact Ho1|].
      destruct Hl1 as [->|[(Hne & _ & q & ->)|(Hne & ->)]];
        [now left|right; left; now exists q|right; right; split; auto]. }
  assert (Hfinal : forall s2,
    (orders s2 = orders st1
     \/ exists q, orders s2 = orders st1 ++ [mkOrder symbol q BUY]) ->
    exists new_orders,
      orders s2 = orders st ++ new_orders
      /\ (new_orders = []
          \/ (exists q, new_orders = [mkOrder symbol q BUY])
          \/ (open_trades symbol (trades st) <> []
              /\ (new_orders =
                  [mkOrder symbol
                     (total_amount_of (open_trades symbol (trades st))) SELL]
                  \/ exists q,
                       new_orders =
                       [mkOrder symbol
                          (total_amount_of (open_trades symbol (trades st)))
                          SELL;
                        mkOrder symbol q BUY])))).
  { intros s2 [Hs2|[q Hs2]]; rewrite Hs2, Ho1.
    - exists l1. split; [reflexivity|].
      destruct Hl1 as [->|[(Hne & _ & q & ->)|(Hne & ->)]];
        [now left|right; left; now exists q|right; right; split; auto].
    - destruct Hl1 as [->|[(Hne & Hopen & _)|(Hne & ->)]].
      + exists [mkOrder symbol q BUY]. split; [now rewrite app_nil_r|].
        right; left. now exists q.
      + contradiction.
      + eexists. split; [now rewrite <- app_assoc|].
        right; right. split; [exact Hne|]. right. now exists q. }
  destruct (run_strategy (snd choice) df);
    try (apply Hfinal; now left).
  destruct (execute_trade_orders st1 symbol BUY (f_close df) "Strategy_Auto"
              None) as [Ho|(q & _ & Ho)].
  - destruct (execute_trade place_order symbol BUY (f_close df)
                "Strategy_Auto" None st1) as [st2 [[]|e]]; cbn [fst] in *;
      apply Hfinal; now left.
  - destruct (execute_trade place_order symbol BUY (f_close df)
                "Strategy_Auto" None st1) as [st2 [[]|e]]; cbn [fst] in *;
      apply Hfinal; right; now exists q.
Qed.



End OrdersOfAPass.


(** ** The peak after a SELL *)

Section PeakAfterSell.

Variable place_order : list order -> order -> outcome order_res.

(** A step of the position manager that sends a SELL leaves the peak it
    has sold against in place. *)
Lemma manage_open_positions_sell_keeps_peak
    (st : bot) (symbol : string) (c q : Q) :
  let st1 := fst (manage_open_positions place_order symbol c st) in
  Forall wf_trade (open_trades symbol (trades st)) ->
  orders st1 = orders st ++ [mkOrder symbol q SELL] ->
  exists peak,
    peak_prices st1 !! symbol = Some peak
    /\ c <= (1 - ttp_trail_pct) * peak.
Proof.
  intros st1 Hwf Ho. subst st1.
  destruct (manage_open_positions_spec place_order st symbol c)
    as [Hno|e Hne Havg|avg e Hne Havg Hprofit
       |avg profit Hne Havg Hprofit Hdca
       |avg profit Hne Havg Hprofit Hdca Hact
       |avg profit Hne Havg Hprofit Hdca Hact Hpk
       |avg profit pk e Hne Havg Hprofit Hdca Hact Hpk Hdd
       |avg profit pk dd Hne Havg Hprofit Hdca Hact Hpk Hdd Htrail
       |avg profit pk dd Hne Havg Hprofit Hdca Hact Hpk Hdd Htrail];
    cbn [fst] in *;
    try (rewrite (proj1 (proj2 (peak_updated_frame symbol avg c st))) in Ho);
    try (exfalso; cbn in Ho; rewrite <- (app_nil_r (orders st)) in Ho at 1;
         apply app_inv_head in Ho; discriminate).
  - (* DCA sends a BUY *)
    exfalso.
    destruct (execute_trade_frame place_order
                (add_event (mkEvent lv_info (MsgSmartDca symbol profit)) st)
                symbol BUY c "DCA" None) as (_ & _ & [H|[q' H]]);
      rewrite H in Ho; cbn in Ho.
    + rewrite <- (app_nil_r (orders st)) in Ho at 1.
      apply app_inv_head in Ho. discriminate.
    + apply app_inv_head in Ho. discriminate.
  - (* the SELL of the trailing stop *)
    destruct (execute_trade_frame place_order
                (add_event (mkEvent lv_info (MsgTtpTriggered symbol))
                   (peak_updated symbol avg c st))
                symbol SELL c "TTP"
                (Some (total_amount_of (open_trades symbol (trades st)))))
      as (Hpeaks & _).
    exists pk. rewrite Hpeaks. split; [exact Hpk|].
    assert (Hnz : ~ avg == 0) by (apply pydiv_inv in Hprofit; tauto).
    destruct (avg_price_of_times_total _ avg Hwf Havg Hnz) as (Hpos & _ & _).
    destruct (profit_pct_sign c avg profit Hpos Hprofit) as [Hup _].
    specialize (Hup Hact).
    assert (Hcpk : c <= pk).
    { unfold peak_updated in Hpk.
      destruct (Qltb (default avg (peak_prices st !! symbol)) c) eqn:E.
      - cbn in Hpk. rewrite lookup_insert_eq in Hpk. injection Hpk as <-.
        lra.
      - apply Qltb_false in E. rewrite Hpk in E. exact E. }
    apply pydiv_inv in Hdd as [_ ->].
    apply Qdiv_ge_iff in Htrail; [|lra].
    unfold ttp_trail_pct in *. lra.
Qed.

(** A pass of the loop body on candles that arrived: a log, the step of
    the position manager, and then nothing more or the entry; what a final
    error log adds is an event only. *)
Lemma process_symbol_decomposition
    (st : bot) (symbol : string) (df : frame) :
  exists ev st2,
    let st0 := add_event ev st in
    let pm := manage_open_positions place_order symbol (f_close df) st0 in
    let st' := fst (process_symbol place_order symbol (Return df) st) in
    trades st' = trades st2
    /\ orders st' = orders st2
    /\ peak_prices st' = peak_prices st2
    /\ (st2 = fst pm
        \/ (snd pm = Return tt
            /\ open_trades symbol (trades (fst pm)) = []
            /\ st2 = fst (execute_trade place_order symbol BUY (f_close df)
                            "Strategy_Auto" None (fst pm)))).
Proof.
  remember (process_symbol place_order symbol (Return df) st) as res eqn:Eres.
  unfold process_symbol, try_except in Eres. rewrite bind_lift in Eres.
  unfold strategy_4_auto_ai in Eres.
  rewrite bind_bind, bind_log, bind_ret in Eres.
  set (choice := if Qltb 25 (f_adx14 df) then _ else _) in Eres.
  exists (mkEvent lv_info
            (MsgRegime (fst choice) (strategy_name_of (snd choice)))).
  cbv zeta. set (st0 := add_event _ st) in *.
  unfold manage_then_enter in Eres. unfold bind at 1 in Eres.
  destruct (manage_open_positions place_order symbol (f_close df) st0)
    as [st1 [[]|e]] eqn:Epm; cbn [fst snd].
  2:{ exists st1. subst res. cbn [fst snd log add_event trades orders
                                   peak_prices].
      repeat split. now left. }
  unfold bind, check_open_position in Eres.
  destruct (open_trades symbol (trades st1)) as [|t l] eqn:Eopen;
    cbn [length Nat.ltb Nat.leb] in Eres.
  2:{ exists st1. subst res. cbn [fst]. repeat split. now left. }
  destruct (run_strategy (snd choice) df);
    try (exists st1; subst res; cbn [fst]; repeat split; now left).
  exists (fst (execute_trade place_order symbol BUY (f_close df)
                 "Strategy_Auto" None st1)).
  destruct (execute_trade place_order symbol BUY (f_close df)
              "Strategy_Auto" None st1) as [st2 [[]|e]];
    subst res;
    cbn [fst snd log add_event trades orders peak_prices];
    repeat split; right; repeat split; reflexivity.
Qed.

(** X18.  The stored peak outlives the SELL it triggers, and an entry made
    in the same pass does not reset it: after any pass of the loop body
    that sent a SELL, the symbol still has a stored peak, and the close of
    that pass is at most 99 % of it.  A position entered in that pass
    starts with this peak. *)
Theorem peak_survives_sell_and_entry
    (st : bot) (symbol : string) (df : frame) (q : Q)
    (later_orders : list order) :
  let st' := fst (process_symbol place_order symbol (Return df) st) in
  Forall wf_trade (open_trades symbol (trades st)) ->
  orders st' = orders st ++ mkOrder symbol q SELL :: later_orders ->
  exists peak,
    peak_prices st' !! symbol = Some peak
    /\ f_close df <= (1 - ttp_trail_pct) * peak.
Proof.
  intros st' Hwf Ho.
  destruct (process_symbol_decomposition st symbol df)
    as (ev & st2 & _ & Hord & Hpeaks & Hst2).
  fold st' in Hord, Hpeaks. rewrite Hpeaks. rewrite Hord in Ho.
  set (st0 := add_event ev st) in *.
  pose proof (manage_open_positions_sell_keeps_peak st0 symbol (f_close df))
    as Hkeep. cbv zeta in Hkeep.
  destruct (manage_open_positions_orders place_order st0 symbol (f_close df))
    as (l1 & Ho1 & Hl1).
  set (st1 := fst (manage_open_positions place_order symbol (f_close df) st0))
    in *.
  change (orders st0) with (orders st) in *.
  change (trades st0) with (trades st) in *.
  assert (Hsold : forall l2,
    orders st ++ l1 ++ l2 = orders st ++ mkOrder symbol q SELL :: later_orders ->
    (l2 = [] \/ exists q', l2 = [mkOrder symbol q' BUY]) ->
    exists peak,
      peak_prices st1 !! symbol = Some peak
      /\ f_close df <= (1 - ttp_trail_pct) * peak).
  { intros l2 Heq Hl2. apply app_inv_head in Heq.
    destruct Hl1 as [->|[(_ & _ & q' & ->)|(_ & ->)]].
    - destruct Hl2 as [->|[q' ->]]; discriminate.
    - discriminate.
    - injection Heq as Hq _. apply (Hkeep q Hwf). now rewrite Ho1, Hq. }
  destruct Hst2 as [->|(_ & _ & ->)].
  - apply (Hsold []); [|now left].
    rewrite app_nil_r, <- Ho1. exact Ho.
  - destruct (execute_trade_frame place_order st1 symbol BUY (f_close df)
                "Strategy_Auto" None) as (Hpk2 & _ & Ho2).
    rewrite Hpk2.
    destruct Ho2 as [Ho2|[q' Ho2]]; rewrite Ho2, Ho1 in Ho.
    + apply (Hsold []); [|now left]. now rewrite app_nil_r.
    + apply (Hsold [mkOrder symbol q' BUY]); [|right; now exists q'].
      now rewrite app_assoc.
Qed.

End PeakAfterSell.

Lemma peak_survives_sell_and_entry_witness :
  exists peak,
    peak_prices (fst (process_symbol filling_exchange "BTCUSDT"
                        (Return (frame_at 104.8 20)) trailing_state))
      !! "BTCUSDT" = Some peak
    /\ f_close (frame_at 104.8 20) <= (1 - ttp_trail_pct) * peak.
Proof.
  apply (peak_survives_sell_and_entry filling_exchange trailing_state
           "BTCUSDT" (frame_at 104.8 20) 1
           [mkOrder "BTCUSDT" (15 / 104.8) BUY]).
  - repeat constructor; simpl; lra.
  - vm_compute. reflexivity.
Defined.

End EngineFacts.

(** * Facts about the quantizer *)

Module QuantizerFacts.
Import Quantizer Scenario.

(** ** The output has no exponent *)

Lemma all_chars_append (p : ascii -> bool) (s1 s2 : string) :
  all_chars p (String.append s1 s2) = all_chars p s1 && all_chars p s2.
Proof.
  induction s1 as [|c s1 IH]; simpl; [reflexivity|].
  rewrite IH. apply andb_assoc.
Qed.

Lemma all_chars_substring (p : ascii -> bool) (s : string) (n m : nat) :
  all_chars p s = true -> all_chars p (substring n m s) = true.
Proof.
  revert n m. induction s as [|c s IH]; intros n m H.
  - destruct n, m; exact H.
  - cbn [all_chars] in H. apply andb_true_iff in H as [Hc Hs].
    destruct n as [|n]; [destruct m as [|m]|]; cbn [substring all_chars].
    + reflexivity.
    + rewrite Hc. cbn [andb]. now apply IH.
    + now apply IH.
Qed.

Lemma all_chars_zeros (n : Z) : all_chars plain_char (zeros n) = true.
Proof.
  unfold zeros. induction (Z.to_nat n) as [|k IH]; [reflexivity|exact IH].
Qed.

Lemma all_chars_raw_digits (u : Decimal.uint) :
  all_chars plain_char (NilEmpty.string_of_uint u) = true.
Proof. induction u; cbn; assumption || reflexivity. Qed.

Lemma all_chars_digits (u : Decimal.uint) :
  all_chars plain_char (NilZero.string_of_uint u) = true.
Proof.
  unfold NilZero.string_of_uint.
  destruct u; (reflexivity || apply all_chars_raw_digits).
Qed.

Lemma format_f_plain (d : Decimal) : all_chars plain_char (format_f d) = true.
Proof.
  unfold format_f.
  set (d' := if (Z.of_N (d_int d) =? 0)%Z && (0 <? d_exp d)%Z then _ else d).
  set (digits := NilZero.string_of_uint (N.to_uint (d_int d'))).
  assert (Hd : all_chars plain_char digits = true)
    by apply all_chars_digits.
  set (parts := if (d_exp d' + _ <? 0)%Z then _ else _).
  assert (Hparts : all_chars plain_char (fst parts) = true
                   /\ all_chars plain_char (snd parts) = true).
  { unfold parts.
    destruct (d_exp d' + Z.of_nat (String.length digits) <? 0)%Z;
      [|destruct (Z.of_nat (String.length digits)
                  <? d_exp d' + Z.of_nat (String.length digits))%Z];
      cbn [fst snd].
    - rewrite all_chars_append, all_chars_zeros, Hd. now split.
    - rewrite all_chars_append, all_chars_zeros, Hd. now split.
    - split; [|now apply all_chars_substring].
      destruct (String.eqb _ ""); [reflexivity|].
      now apply all_chars_substring. }
  destruct Hparts as [Hi Hf].
  rewrite !all_chars_append, Hi.
  destruct (d_neg d'); destruct (String.eqb (snd parts) "");
    cbn [all_chars andb]; try reflexivity;
    rewrite ?all_chars_append, ?Hf; reflexivity.
Qed.

(** ** The value of a [Decimal] *)

Lemma pow10_pos (e : Z) : 0 < 10 ^ e.
Proof. apply Qpower_0_lt. reflexivity. Qed.

Lemma pow10_split (a b : Z) : 10 ^ a == 10 ^ (a - b) * 10 ^ b.
Proof.
  rewrite <- Qpower_plus by discriminate.
  now replace (a - b + b)%Z with a by ring.
Qed.

Lemma inject_pow10 (k : Z) : (0 <= k)%Z -> inject_Z (10 ^ k) == 10 ^ k.
Proof. intros H. now rewrite Zpower_Qpower. Qed.

Lemma dec_fix_small (d : Decimal) :
  (Z.of_N (d_int d) < 10 ^ prec)%Z -> dec_fix d = d.
Proof.
  intros H. unfold dec_fix. apply Z.ltb_lt in H. now rewrite H.
Qed.

Lemma strip_zeros_spec (fuel : nat) (c e : Z) :
  (0 < c)%Z ->
  (0 < fst (strip_zeros fuel c e))%Z
  /\ inject_Z (fst (strip_zeros fuel c e)) * 10 ^ snd (strip_zeros fuel c e)
     == inject_Z c * 10 ^ e.
Proof.
  revert c e. induction fuel as [|fuel IH]; intros c e Hc;
    cbn [strip_zeros].
  - split; [exact Hc|reflexivity].
  - destruct (c mod 10 =? 0)%Z eqn:E; cbn [fst snd].
    2:{ split; [exact Hc|reflexivity]. }
    apply Z.eqb_eq in E.
    assert (Hdiv : c = (10 * (c / 10))%Z)
      by (apply Z_div_exact_full_2; [discriminate|exact E]).
    assert (Hpos : (0 < c / 10)%Z) by lia.
    destruct (IH (c / 10)%Z (e + 1)%Z Hpos) as [H1 H2].
    split; [exact H1|]. rewrite H2.
    rewrite Hdiv at 2. rewrite inject_Z_mult.
    rewrite Qpower_plus by discriminate.
    change (10 ^ 1) with 10. change (inject_Z 10) with 10. ring.
Qed.

Lemma normalize_spec (d : Decimal) :
  (0 < Z.of_N (d_int d) < 10 ^ prec)%Z ->
  d_neg (normalize d) = d_neg d
  /\ (0 < Z.of_N (d_int (normalize d)))%Z
  /\ value (normalize d) == value d.
Proof.
  intros [Hpos Hsmall]. unfold normalize.
  rewrite (dec_fix_small d Hsmall).
  destruct (Z.of_N (d_int d) =? 0)%Z eqn:E; [apply Z.eqb_eq in E; lia|].
  destruct (strip_zeros_spec (S (Z.to_nat (Z.log2 (Z.of_N (d_int d)))))
              (Z.of_N (d_int d)) (d_exp d) Hpos) as [H1 H2].
  set (ce := strip_zeros _ _ _) in *.
  cbn [d_neg d_int d_exp]. split; [reflexivity|].
  rewrite Z2N.id by lia. split; [exact H1|].
  unfold value. cbn [d_neg d_int d_exp]. rewrite Z2N.id by lia.
  rewrite <- !Qmult_assoc. now rewrite H2.
Qed.

(** The integer quotient that [floordiv] computes is the floor of the
    quotient of the two magnitudes. *)
Lemma scaled_quotient (ca cb ea eb : Z) :
  (0 < cb)%Z ->
  ((if eb <=? ea then ca * 10 ^ (ea - eb) else ca)
   / (if eb <=? ea then cb else cb * 10 ^ (eb - ea)))%Z
  = Qfloor ((inject_Z ca * 10 ^ ea) / (inject_Z cb * 10 ^ eb)).
Proof.
  intros Hcb. rewrite Zdiv_Qdiv. apply Qfloor_comp.
  assert (Hb : ~ inject_Z cb == 0).
  { intros H. unfold Qeq in H. cbn in H. lia. }
  pose proof (pow10_pos ea) as Hea. pose proof (pow10_pos eb) as Heb.
  destruct (eb <=? ea)%Z eqn:E.
  - apply Z.leb_le in E.
    rewrite inject_Z_mult, inject_pow10 by lia.
    rewrite (pow10_split ea eb).
    pose proof (pow10_pos (ea - eb)) as Hd.
    set (x := 10 ^ (ea - eb)) in *. set (y := 10 ^ eb) in *.
    field. split; [lra|exact Hb].
  - apply Z.leb_gt in E.
    rewrite inject_Z_mult, inject_pow10 by lia.
    rewrite (pow10_split eb ea).
    pose proof (pow10_pos (eb - ea)) as Hd.
    set (x := 10 ^ (eb - ea)) in *. set (y := 10 ^ ea) in *.
    field. repeat split; try lra; exact Hb.
Qed.

Lemma value_magnitude (d : Decimal) :
  0 <= value d ->
  value d == inject_Z (Z.of_N (d_int d)) * 10 ^ d_exp d
  /\ (d_neg d = true -> d_int d = 0%N).
Proof.
  unfold value. intros H.
  pose proof (pow10_pos (d_exp d)) as He.
  destruct (d_neg d).
  - assert (Hc : (0 <= Z.of_N (d_int d))%Z) by lia.
    rewrite Zle_Qle in Hc. change (inject_Z 0) with 0 in Hc.
    assert (Hz : inject_Z (Z.of_N (d_int d)) == 0).
    { apply Qle_antisym; [|exact Hc].
      apply Qnot_lt_le. intros Hlt.
      assert (0 < inject_Z (Z.of_N (d_int d)) * 10 ^ d_exp d)
        by (apply Qmult_lt_0_compat; assumption).
      lra. }
    split.
    + rewrite Hz. ring.
    + intros _. unfold Qeq in Hz. cbn in Hz. lia.
  - split; [ring|discriminate].
Qed.

Lemma value_positive (d : Decimal) :
  d_neg d = false -> (0 < Z.of_N (d_int d))%Z -> 0 < value d.
Proof.
  intros Hneg Hc. unfold value. rewrite Hneg.
  rewrite Zlt_Qlt in Hc. change (inject_Z 0) with 0 in Hc.
  pose proof (pow10_pos (d_exp d)) as He.
  assert (0 < inject_Z (Z.of_N (d_int d)) * 10 ^ d_exp d)
    by (apply Qmult_lt_0_compat; assumption).
  lra.
Qed.

(** ** [format_number] *)

Lemma format_number_known_step
    (symbol_filters : gmap string (gmap string filter))
    (symbol filter_type : string) (val_dec : Decimal) :
  format_number symbol_filters symbol val_dec filter_type =
  match known_step symbol_filters symbol filter_type with
  | None => Return (format_f val_dec)
  | Some step =>
      match floordiv val_dec (normalize step) with
      | Raise e => Raise e
      | Return q => Return (format_f (mul q (normalize step)))
      end
  end.
Proof.
  unfold format_number, known_step.
  destruct (symbol_filters !! symbol) as [by_type|]; [|reflexivity].
  destruct (step_of _); reflexivity.
Qed.

(** C6 (as amended).  [format_number] returns the plain decimal text of
    the value when no step size is known.  When a positive step size of at
    most 28 digits is known, the value is not negative and the result fits
    the 28 digits of the decimal context, it returns the text of
    [floor (value / step) * step]: an exact multiple of the step, not above
    the value and less than one step below it.  In both cases the text is
    made of digits, a point and a sign only. *)
Theorem format_number_rounds_down_to_step
    (symbol_filters : gmap string (gmap string filter))
    (symbol filter_type : string) (val_dec : Decimal) :
  (known_step symbol_filters symbol filter_type = None ->
   format_number symbol_filters symbol val_dec filter_type
   = Return (format_f val_dec)
   /\ all_chars plain_char (format_f val_dec) = true)
  /\ (forall step,
        known_step symbol_filters symbol filter_type = Some step ->
        d_neg step = false ->
        (0 < Z.of_N (d_int step) < 10 ^ prec)%Z ->
        0 <= value val_dec ->
        (Qfloor (value val_dec / value step)
         * Z.of_N (d_int (normalize step)) < 10 ^ prec)%Z ->
        exists quantized_val,
          format_number symbol_filters symbol val_dec filter_type
          = Return (format_f quantized_val)
          /\ value quantized_val
             == inject_Z (Qfloor (value val_dec / value step)) * value step
          /\ value quantized_val <= value val_dec
          /\ value val_dec < value quantized_val + value step
          /\ all_chars plain_char (format_f quantized_val) = true).
Proof.
  rewrite format_number_known_step. split.
  { intros ->. split; [reflexivity|apply format_f_plain]. }
  intros step -> Hneg Hcoeff Hval Hfits.
  destruct (normalize_spec step Hcoeff) as (Hneg' & Hcs & Hvs).
  rewrite Hneg in Hneg'.
  set (s := normalize step) in *.
  pose proof (value_positive step Hneg (proj1 Hcoeff)) as Hstep.
  destruct (value_magnitude val_dec Hval) as [Hmag Hzero].
  set (x := value val_dec / value step) in *.
  assert (Hx : 0 <= x).
  { unfold x. apply Qle_shift_div_l; [exact Hstep|]. lra. }
  assert (Hq0 : (0 <= Qfloor x)%Z).
  { change 0%Z with (Qfloor 0). now apply Qfloor_resp_le. }
  assert (Hquot :
    ((if d_exp s <=? d_exp val_dec
      then Z.of_N (d_int val_dec) * 10 ^ (d_exp val_dec - d_exp s)
      else Z.of_N (d_int val_dec))
     / (if d_exp s <=? d_exp val_dec
        then Z.of_N (d_int s)
        else Z.of_N (d_int s) * 10 ^ (d_exp s - d_exp val_dec)))%Z
    = Qfloor x).
  { rewrite scaled_quotient by exact Hcs. apply Qfloor_comp.
    unfold x. rewrite <- Hvs, Hmag. unfold value. rewrite Hneg'.
    pose proof (pow10_pos (d_exp s)) as Hes.
    assert (Hcs' : 0 < inject_Z (Z.of_N (d_int s)))
      by (rewrite Zlt_Qlt in Hcs; exact Hcs).
    set (p := 10 ^ d_exp s) in *. set (k := inject_Z (Z.of_N (d_int s))) in *.
    field. split; lra. }
  unfold floordiv.
  destruct (Z.of_N (d_int s) =? 0)%Z eqn:E; [apply Z.eqb_eq in E; lia|].
  rewrite Hquot.
  assert (Hsmall : (Qfloor x < 10 ^ prec)%Z) by nia.
  apply Z.ltb_lt in Hsmall. rewrite Hsmall.
  unfold mul. cbn [d_neg d_int d_exp]. rewrite Hneg'.
  rewrite dec_fix_small.
  2:{ cbn [d_int]. rewrite N2Z.inj_mul, Z2N.id by exact Hq0. exact Hfits. }
  set (out := mkDec _ _ _).
  assert (Hout : value out == inject_Z (Qfloor x) * value step).
  { rewrite <- Hvs. unfold out, value. cbn [d_neg d_int d_exp].
    rewrite Hneg'. rewrite N2Z.inj_mul, Z2N.id by exact Hq0.
    rewrite inject_Z_mult. rewrite Z.add_0_l.
    destruct (d_neg val_dec) eqn:Ev; cbn [xorb].
    - assert (Hx0 : x == 0).
      { unfold x. rewrite Hmag, (Hzero eq_refl). cbn [Z.of_N].
        change (inject_Z 0) with 0. field. lra. }
      rewrite (Qfloor_comp _ _ Hx0). change (Qfloor 0) with 0%Z.
      change (inject_Z 0) with 0. ring.
    - ring. }
  exists out. split; [reflexivity|]. split; [exact Hout|].
  pose proof (Qfloor_le x) as Hle. pose proof (Qlt_floor x) as Hlt.
  rewrite inject_Z_plus in Hlt. change (inject_Z 1) with 1 in Hlt.
  assert (Hxs : x * value step == value val_dec).
  { unfold x. field. lra. }
  split; [|split].
  - rewrite Hout, <- Hxs. apply Qmult_le_compat_r; [exact Hle|lra].
  - rewrite Hout, <- Hxs.
    assert (x * value step < (inject_Z (Qfloor x) + 1) * value step)
      by (apply Qmult_lt_compat_r; assumption).
    lra.
  - apply format_f_plain.
Qed.

(** The example of the specification: step size 0.001 and input 0.0012345
    give "0.001". *)
Example format_number_example :
  format_number lot_size_filters "BTCUSDT" (mkDec false 12345 (-7))
    "LOT_SIZE" = Return "0.001"%string.
Proof. vm_compute. reflexivity. Qed.

Lemma format_number_rounds_down_to_step_witness :
  exists quantized_val,
    format_number lot_size_filters "BTCUSDT" (mkDec false 12345 (-7))
      "LOT_SIZE" = Return (format_f quantized_val)
    /\ value quantized_val
       == inject_Z (Qfloor (value (mkDec false 12345 (-7))
                            / value (mkDec false 100000 (-8))))
          * value (mkDec false 100000 (-8))
    /\ value quantized_val <= value (mkDec false 12345 (-7))
    /\ value (mkDec false 12345 (-7))
       < value quantized_val + value (mkDec false 100000 (-8))
    /\ all_chars plain_char (format_f quantized_val) = true.
Proof.
  apply (proj2 (format_number_rounds_down_to_step lot_size_filters
                  "BTCUSDT" "LOT_SIZE" (mkDec false 12345 (-7)))
               (mkDec false 100000 (-8))).
  - reflexivity.
  - reflexivity.
  - split; reflexivity.
  - vm_compute. discriminate.
  - reflexivity.
Defined.

(** C6 as the claim words it does not hold for every numeric value: the
    quotient of [//] is truncated towards zero, so -0.0015 with step 0.001
    gives "-0.001", which is above the input and is not
    [floor (value / step) * step] = -0.002. *)
Lemma format_number_negative_value_not_floor :
  let val_dec := mkDec true 15 (-4) in
  let step := mkDec false 100000 (-8) in
  let quantized_val := mkDec true 1 (-3) in
  known_step lot_size_filters "BTCUSDT" "LOT_SIZE" = Some step
  /\ format_number lot_size_filters "BTCUSDT" val_dec "LOT_SIZE"
     = Return (format_f quantized_val)
  /\ format_f quantized_val = "-0.001"%string
  /\ ~ value quantized_val <= value val_dec
  /\ ~ value quantized_val
       == inject_Z (Qfloor (value val_dec / value step)) * value step.
Proof.
  cbv zeta. split; [reflexivity|]. split; [vm_compute; reflexivity|].
  split; [vm_compute; reflexivity|]. split.
  - intros H. vm_compute in H. apply H. reflexivity.
  - intros H. vm_compute in H. discriminate.
Qed.

(** A step size sent as ["0.00000000"] is found, and dividing by it
    raises. *)
Example format_number_zero_step_raises :
  format_number
    {[ "BTCUSDT"%string :=
         {[ "PRICE_FILTER"%string :=
              mkFilter None (Some (mkDec false 0 (-8))) ]} ]}
    "BTCUSDT" (mkDec false 12345 (-1)) "PRICE_FILTER"
  = Raise DivisionByZero.
Proof. vm_compute. reflexivity. Qed.

(** Beyond the 28 digits of the context the product is rounded, or the
    quotient is refused. *)
Example format_number_beyond_precision :
  let filters : gmap string (gmap string filter) :=
    {[ "BTCUSDT"%string :=
         {[ "LOT_SIZE"%string := mkFilter (Some (mkDec false 7 (-1))) None ]} ]}
  in
  format_number filters "BTCUSDT" (mkDec false 6999999999999999 12) "LOT_SIZE"
  = Return "6999999999999999000000000000"%string
  /\ format_number filters "BTCUSDT" (mkDec false 1 30) "LOT_SIZE"
     = Raise InvalidOperation.
Proof. vm_compute. split; reflexivity. Qed.

(** * More about the quantizer *)

(** The [Decimal] that [format_number] prints for a value that is not
    negative, a positive step and a result within the precision. *)
Lemma format_number_quantized
    (symbol_filters : gmap string (gmap string filter))
    (symbol filter_type : string) (val_dec step : Decimal) :
  known_step symbol_filters symbol filter_type = Some step ->
  d_neg step = false ->
  (0 < Z.of_N (d_int step) < 10 ^ prec)%Z ->
  0 <= value val_dec ->
  (Qfloor (value val_dec / value step)
   * Z.of_N (d_int (normalize step)) < 10 ^ prec)%Z ->
  exists quantized_val,
    format_number symbol_filters symbol val_dec filter_type
    = Return (format_f quantized_val)
    /\ value quantized_val
       == inject_Z (Qfloor (value val_dec / value step)) * value step.
Proof.
  rewrite format_number_known_step.
  intros -> Hneg Hcoeff Hval Hfits.
  destruct (normalize_spec step Hcoeff) as (Hneg' & Hcs & Hvs).
  rewrite Hneg in Hneg'.
  set (s := normalize step) in *.
  pose proof (value_positive step Hneg (proj1 Hcoeff)) as Hstep.
  destruct (value_magnitude val_dec Hval) as [Hmag Hzero].
  set (x := value val_dec / value step) in *.
  assert (Hx : 0 <= x).
  { unfold x. apply Qle_shift_div_l; [exact Hstep|]. lra. }
  assert (Hq0 : (0 <= Qfloor x)%Z).
  { change 0%Z with (Qfloor 0). now apply Qfloor_resp_le. }
  unfold floordiv.
  destruct (Z.of_N (d_int s) =? 0)%Z eqn:E; [apply Z.eqb_eq in E; lia|].
  rewrite scaled_quotient by exact Hcs.
  assert (Hquot :
    Qfloor ((inject_Z (Z.of_N (d_int val_dec)) * 10 ^ d_exp val_dec)
            / (inject_Z (Z.of_N (d_int s)) * 10 ^ d_exp s)) = Qfloor x).
  { apply Qfloor_comp. unfold x. rewrite <- Hvs, Hmag.
    unfold value. rewrite Hneg'.
    pose proof (pow10_pos (d_exp s)) as Hes.
    assert (Hcs' : 0 < inject_Z (Z.of_N (d_int s)))
      by (rewrite Zlt_Qlt in Hcs; exact Hcs).
    set (p := 10 ^ d_exp s) in *. set (k := inject_Z (Z.of_N (d_int s))) in *.
    field. split; lra. }
  rewrite Hquot.
  assert (Hsmall : (Qfloor x < 10 ^ prec)%Z) by nia.
  apply Z.ltb_lt in Hsmall. rewrite Hsmall.
  unfold mul. cbn [d_neg d_int d_exp]. rewrite Hneg'.
  rewrite dec_fix_small.
  2:{ cbn [d_int]. rewrite N2Z.inj_mul, Z2N.id by exact Hq0. exact Hfits. }
  eexists. split; [reflexivity|].
  rewrite <- Hvs. unfold value. cbn [d_neg d_int d_exp].
  rewrite Hneg'. rewrite N2Z.inj_mul, Z2N.id by exact Hq0.
  rewrite inject_Z_mult. rewrite Z.add_0_l.
  destruct (d_neg val_dec) eqn:Ev; cbn [xorb].
  - assert (Hx0 : x == 0).
    { unfold x. rewrite Hmag, (Hzero eq_refl). cbn [Z.of_N].
      change (inject_Z 0) with 0. field. lra. }
    rewrite (Qfloor_comp _ _ Hx0). change (Qfloor 0) with 0%Z.
    change (inject_Z 0) with 0. ring.
  - ring.
Qed.

(** X15.  A value that already lies on the grid of the step is kept: when
    the value is [k] steps for a whole number [k >= 0], the number that
    [format_number] prints is the value itself. *)
Theorem format_number_keeps_grid_values
    (symbol_filters : gmap string (gmap string filter))
    (symbol filter_type : string) (val_dec step : Decimal) (k : Z) :
  known_step symbol_filters symbol filter_type = Some step ->
  d_neg step = false ->
  (0 < Z.of_N (d_int step) < 10 ^ prec)%Z ->
  (0 <= k)%Z ->
  value val_dec == inject_Z k * value step ->
  (k * Z.of_N (d_int (normalize step)) < 10 ^ prec)%Z ->
  exists quantized_val,
    format_number symbol_filters symbol val_dec filter_type
    = Return (format_f quantized_val)
    /\ value quantized_val == value val_dec.
Proof.
  intros Hstep Hneg Hcoeff Hk Hgrid Hfits.
  pose proof (value_positive step Hneg (proj1 Hcoeff)) as Hpos.
  assert (Hfloor : Qfloor (value val_dec / value step) = k).
  { rewrite <- (Qfloor_Z k). apply Qfloor_comp. rewrite Hgrid.
    field. lra. }
  assert (Hval : 0 <= value val_dec).
  { rewrite Hgrid. apply Qmult_le_0_compat; [|lra].
    rewrite Zle_Qle in Hk. exact Hk. }
  destruct (format_number_quantized symbol_filters symbol filter_type val_dec
              step Hstep Hneg Hcoeff Hval) as (out & Hrun & Hout).
  { now rewrite Hfloor. }
  exists out. split; [exact Hrun|]. now rewrite Hout, Hfloor, Hgrid.
Qed.

(** X16.  Quantization keeps the order of values: of two values that are
    not negative, the smaller is printed as a number that is not above the
    number printed for the larger. *)
Theorem format_number_is_monotone
    (symbol_filters : gmap string (gmap string filter))
    (symbol filter_type : string) (val1 val2 step : Decimal) :
  known_step symbol_filters symbol filter_type = Some step ->
  d_neg step = false ->
  (0 < Z.of_N (d_int step) < 10 ^ prec)%Z ->
  0 <= value val1 ->
  value val1 <= value val2 ->
  (Qfloor (value val2 / value step)
   * Z.of_N (d_int (normalize step)) < 10 ^ prec)%Z ->
  exists out1 out2,
    format_number symbol_filters symbol val1 filter_type
    = Return (format_f out1)
    /\ format_number symbol_filters symbol val2 filter_type
       = Return (format_f out2)
    /\ value out1 <= value out2.
Proof.
  intros Hstep Hneg Hcoeff Hval1 Hle Hfits.
  pose proof (value_positive step Hneg (proj1 Hcoeff)) as Hpos.
  destruct (normalize_spec step Hcoeff) as (_ & Hcs & _).
  assert (Hdiv : value val1 / value step <= value val2 / value step).
  { apply Qle_shift_div_l; [exact Hpos|].
    assert (E : value val1 / value step * value step == value val1)
      by (field; lra).
    now rewrite E. }
  pose proof (Qfloor_resp_le _ _ Hdiv) as Hfl.
  assert (H0 : (0 <= Qfloor (value val1 / value step))%Z).
  { change 0%Z with (Qfloor 0). apply Qfloor_resp_le.
    apply Qle_shift_div_l; [exact Hpos|]. lra. }
  destruct (format_number_quantized symbol_filters symbol filter_type val1
              step Hstep Hneg Hcoeff Hval1) as (out1 & Hrun1 & Hout1).
  { nia. }
  destruct (format_number_quantized symbol_filters symbol filter_type val2
              step Hstep Hneg Hcoeff) as (out2 & Hrun2 & Hout2).
  { lra. }
  { exact Hfits. }
  exists out1, out2. split; [exact Hrun1|]. split; [exact Hrun2|].
  rewrite Hout1, Hout2. apply Qmult_le_compat_r; [|lra].
  rewrite <- Zle_Qle. exact Hfl.
Qed.

(** X17.  A step size whose text is a zero (["0.00000000"], the exchange's
    way of switching a rule off) is not treated as absent: [format_number]
    divides by it and raises for every value, [InvalidOperation] for a zero
    value and [DivisionByZero] otherwise. *)
Theorem format_number_zero_step_always_raises
    (symbol_filters : gmap string (gmap string filter))
    (symbol filter_type : string) (val_dec step : Decimal) :
  known_step symbol_filters symbol filter_type = Some step ->
  d_int step = 0%N ->
  format_number symbol_filters symbol val_dec filter_type
  = Raise (if (Z.of_N (d_int val_dec) =? 0)%Z
           then InvalidOperation else DivisionByZero).
Proof.
  intros Hstep Hzero. rewrite format_number_known_step, Hstep.
  assert (Hnorm : d_int (normalize step) = 0%N).
  { unfold normalize. rewrite dec_fix_small by (rewrite Hzero; reflexivity).
    rewrite Hzero. reflexivity. }
  unfold floordiv. rewrite Hnorm. cbn [Z.of_N Z.eqb].
  destruct (Z.of_N (d_int val_dec) =? 0)%Z; reflexivity.
Qed.

Lemma format_number_keeps_grid_values_witness :
  exists quantized_val,
    format_number lot_size_filters "BTCUSDT" (mkDec false 15 (-2)) "LOT_SIZE"
    = Return (format_f quantized_val)
    /\ value quantized_val == value (mkDec false 15 (-2)).
Proof.
  apply (format_number_keeps_grid_values lot_size_filters "BTCUSDT"
           "LOT_SIZE" (mkDec false 15 (-2)) (mkDec false 100000 (-8)) 150).
  - reflexivity.
  - reflexivity.
  - split; reflexivity.
  - discriminate.
  - reflexivity.
  - reflexivity.
Defined.

Lemma format_number_is_monotone_witness :
  exists out1 out2,
    format_number lot_size_filters "BTCUSDT" (mkDec false 12345 (-7))
      "LOT_SIZE" = Return (format_f out1)
    /\ format_number lot_size_filters "BTCUSDT" (mkDec false 15 (-2))
         "LOT_SIZE" = Return (format_f out2)
    /\ value out1 <= value out2.
Proof.
  apply (format_number_is_monotone lot_size_filters "BTCUSDT" "LOT_SIZE"
           (mkDec false 12345 (-7)) (mkDec false 15 (-2))
           (mkDec false 100000 (-8))).
  - reflexivity.
  - reflexivity.
  - split; reflexivity.
  - vm_compute. discriminate.
  - vm_compute. discriminate.
  - reflexivity.
Defined.

Lemma format_number_zero_step_always_raises_witness :
  format_number zero_tick_filters "BTCUSDT" (mkDec false 12345 (-1))
    "PRICE_FILTER"
  = Raise (if (Z.of_N (d_int (mkDec false 12345 (-1))) =? 0)%Z
           then InvalidOperation else DivisionByZero).
Proof.
  apply (format_number_zero_step_always_raises zero_tick_filters "BTCUSDT"
           "PRICE_FILTER" (mkDec false 12345 (-1)) (mkDec false 0 (-8))).
  - reflexivity.
  - reflexivity.
Defined.

End QuantizerFacts.

(** * Facts about the client *)

Module ClientFacts.
Import Quantizer Client Scenario.

(** A dictionary filled by assignments in list order holds, under a key,
    the value of the last element with that key, or what it held before. *)
Lemma fold_left_insert_lookup {A B : Type} (key : A -> string) (val : A -> B)
    (l : list A) (d : gmap string B) (k : string) :
  fold_left (fun m a => <[key a := val a]> m) l d !! k
  = match find (fun a => String.eqb (key a) k) (rev l) with
    | Some a => Some (val a)
    | None => d !! k
    end.
Proof.
  induction l as [|a l IH] using rev_ind; [reflexivity|].
  rewrite fold_left_app, rev_app_distr. cbn [fold_left rev app find].
  destruct (String.eqb_spec (key a) k) as [->|Hne].
  - now rewrite lookup_insert_eq.
  - rewrite lookup_insert_ne by exact Hne. exact IH.
Qed.

Lemma find_none_not_in {A : Type} (key : A -> string) (l : list A)
    (k : string) :
  ~ In k (map key l) ->
  find (fun a => String.eqb (key a) k) l = None.
Proof.
  induction l as [|a l IH]; [reflexivity|].
  cbn [map In find]. intros Hnot.
  destruct (String.eqb_spec (key a) k) as [He|_]; [tauto|].
  apply IH. tauto.
Qed.

Lemma find_last_listing {A : Type} (key : A -> string)
    (before after : list A) (a : A) :
  ~ In (key a) (map key after) ->
  find (fun x => String.eqb (key x) (key a)) (rev (before ++ a :: after))
  = Some a.
Proof.
  intros Hnot. rewrite rev_app_distr. cbn [rev]. rewrite <- app_assoc.
  cbn [app].
  assert (Hfind : forall l1 l2,
             find (fun x => String.eqb (key x) (key a)) l1 = None ->
             find (fun x => String.eqb (key x) (key a)) (l1 ++ l2)
             = find (fun x => String.eqb (key x) (key a)) l2).
  { induction l1 as [|x l1 IH]; [reflexivity|].
    cbn [app find]. intros l2. destruct (String.eqb (key x) (key a));
      [discriminate|apply IH]. }
  rewrite Hfind.
  - cbn [find]. now rewrite String.eqb_refl.
  - apply find_none_not_in. rewrite map_rev, <- in_rev. exact Hnot.
Qed.

Lemma load_exchange_info_lookup (data : list symbol_data)
    (symbol_filters : gmap string (gmap string filter)) (symbol : string) :
  fst (load_exchange_info (Return data) symbol_filters) !! symbol
  = match find (fun sd => String.eqb (sd_symbol sd) symbol) (rev data) with
    | Some sd => Some (by_filter_type (sd_filters sd))
    | None => symbol_filters !! symbol
    end.
Proof.
  cbn [load_exchange_info fst].
  apply (fold_left_insert_lookup sd_symbol
           (fun sd => by_filter_type (sd_filters sd))).
Qed.

(** X19.  Loading the exchange rules changes nothing for a symbol the
    exchange does not list, and nothing at all when the request fails:
    [format_number] answers for it as before. *)
Theorem load_exchange_info_keeps_unlisted_symbols
    (response : outcome (list symbol_data))
    (symbol_filters : gmap string (gmap string filter))
    (symbol filter_type : string) (val_dec : Decimal) :
  (forall data, response = Return data -> ~ In symbol (map sd_symbol data)) ->
  format_number (fst (load_exchange_info response symbol_filters))
    symbol val_dec filter_type
  = format_number symbol_filters symbol val_dec filter_type.
Proof.
  intros Hunlisted. destruct response as [data|e]; [|reflexivity].
  unfold format_number. rewrite load_exchange_info_lookup.
  rewrite find_none_not_in; [reflexivity|].
  rewrite map_rev, <- in_rev. now apply Hunlisted.
Qed.

(** X20.  For a listed symbol the last listing decides, and within it the
    last filter of a type: the step size [format_number] then uses is that
    filter's, whatever was loaded before. *)
Theorem load_exchange_info_last_listing_wins
    (earlier later : list symbol_data) (sd : symbol_data)
    (first_filters last_filters : list (string * filter))
    (filter_type : string) (f : filter)
    (symbol_filters : gmap string (gmap string filter)) :
  ~ In (sd_symbol sd) (map sd_symbol later) ->
  sd_filters sd = first_filters ++ (filter_type, f) :: last_filters ->
  ~ In filter_type (map fst last_filters) ->
  known_step
    (fst (load_exchange_info (Return (earlier ++ sd :: later))
            symbol_filters))
    (sd_symbol sd) filter_type
  = step_of f.
Proof.
  intros Hlast Hfilters Hlast_filter.
  unfold known_step. rewrite load_exchange_info_lookup.
  rewrite (find_last_listing sd_symbol earlier later sd Hlast).
  unfold by_filter_type. rewrite Hfilters.
  rewrite (fold_left_insert_lookup fst snd).
  pose proof (find_last_listing fst first_filters last_filters
                (filter_type, f) Hlast_filter) as Hfind.
  cbn [fst] in Hfind. rewrite Hfind. reflexivity.
Qed.

(** X21.  A listing replaces the filters of its symbol as a whole: a
    filter type that the last listing of a symbol does not carry is
    forgotten, and [format_number] returns the value unquantized even if
    an earlier load knew a step size for it. *)
Theorem load_exchange_info_forgets_dropped_filters
    (earlier later : list symbol_data) (sd : symbol_data)
    (filter_type : string) (val_dec : Decimal)
    (symbol_filters : gmap string (gmap string filter)) :
  ~ In (sd_symbol sd) (map sd_symbol later) ->
  ~ In filter_type (map fst (sd_filters sd)) ->
  format_number
    (fst (load_exchange_info (Return (earlier ++ sd :: later))
            symbol_filters))
    (sd_symbol sd) val_dec filter_type
  = Return (format_f val_dec).
Proof.
  intros Hlast Hdropped.
  unfold format_number. rewrite load_exchange_info_lookup.
  rewrite (find_last_listing sd_symbol earlier later sd Hlast).
  unfold by_filter_type. rewrite (fold_left_insert_lookup fst snd).
  rewrite find_none_not_in by (rewrite map_rev, <- in_rev; exact Hdropped).
  rewrite lookup_empty. reflexivity.
Qed.

Lemma no_positive_cons (a : string) (b : balance) (rest : list balance) :
  no_positive a (b :: rest)
  <-> (forall free_amt,
         asset b = a -> free b = Some free_amt -> ~ 0 < free_amt)
      /\ no_positive a rest.
Proof.
  unfold no_positive. split.
  - intros H. split.
    + intros free_amt. apply H. now left.
    + intros b' free_amt Hin. apply H. now right.
  - intros [Hb Hrest] b' free_amt [<-|Hin].
    + apply Hb.
    + now apply Hrest.
Qed.

Lemma last_positive_cons (a : string) (v : Q) (b : balance)
    (rest : list balance) :
  last_positive a v (b :: rest)
  <-> last_positive a v rest
      \/ (b = mkBalance a (Some v) /\ 0 < v /\ no_positive a rest).
Proof.
  unfold last_positive. split.
  - intros ([|b' before] & after & Heq & Hv & Hno);
      cbn [app] in Heq; injection Heq as -> ->.
    + right. repeat split; assumption.
    + left. exists before, after. repeat split; assumption.
  - intros [(before & after & -> & Hv & Hno)|(-> & Hv & Hno)].
    + exists (b :: before), after. repeat split; assumption.
    + exists [], rest. repeat split; assumption.
Qed.

(** What the loop of [get_wallet] leaves under an asset: its last
    positive amount, or what the dictionary held when no amount of it is
    positive. *)
Lemma collect_balances_spec (data : list balance) :
  forall (balances w : gmap string Q),
    collect_balances data balances = Return w ->
    forall a v,
      w !! a = Some v
      <-> last_positive a v data
          \/ (no_positive a data /\ balances !! a = Some v).
Proof.
  induction data as [|b rest IH]; intros balances w Hw a v.
  - cbn in Hw. injection Hw as <-. split.
    + intros H. right. split; [intros ? ? []|exact H].
    + intros [([|? ?] & ? & Heq & _)|[_ H]]; [discriminate..|exact H].
  - cbn [collect_balances] in Hw.
    destruct b as [asset_b [free_amt|]]; cbn [free asset] in Hw;
      [|discriminate].
    rewrite (IH _ _ Hw a v), last_positive_cons, no_positive_cons.
    cbn [asset free].
    destruct (Qltb 0 free_amt) eqn:Epos;
      [apply Qltb_true in Epos|apply Qltb_false in Epos].
    + destruct (decide (asset_b = a)) as [->|Hne].
      * rewrite lookup_insert_eq. split.
        -- intros [H|[Hno H]]; [now left; left|].
           injection H as <-. left. right. repeat split; assumption.
        -- intros [[H|(Hb & Hv & Hno)]|[[Hb _] _]].
           ++ now left.
           ++ injection Hb as <-. right. split; [exact Hno|reflexivity].
           ++ exfalso. exact (Hb free_amt eq_refl eq_refl Epos).
      * rewrite lookup_insert_ne by exact Hne. split.
        -- intros [H|[Hno H]]; [now left; left|].
           right. repeat split; try assumption. intros ? Heq. contradiction.
        -- intros [[H|(Hb & _)]|[[_ Hno] H]].
           ++ now left.
           ++ injection Hb as Hb _. contradiction.
           ++ right. split; assumption.
    + split.
      * intros [H|[Hno H]]; [now left; left|].
        right. repeat split; try assumption.
        intros f _ Hf. injection Hf as <-. lra.
      * intros [[H|(Hb & Hv & _)]|[[_ Hno] H]].
        -- now left.
        -- injection Hb as _ Hb. rewrite Hb in Epos. lra.
        -- right. split; assumption.
Qed.

Lemma collect_balances_returns (data : list balance) :
  Forall (fun b => free b <> None) data ->
  forall balances, exists w, collect_balances data balances = Return w.
Proof.
  induction 1 as [|b rest Hb _ IH]; intros balances.
  - now exists balances.
  - cbn [collect_balances]. destruct (free b); [apply IH|contradiction].
Qed.

(** X22.  When every free amount is a number, [get_wallet] returns a
    dictionary that holds, for each asset, the last positive free amount
    the account lists for it, and nothing else: an asset whose amounts are
    all zero is absent, and a later zero does not remove an earlier
    positive amount. *)
Theorem get_wallet_holds_last_positive_amounts (data : list balance) :
  Forall (fun b => free b <> None) data ->
  exists w,
    get_wallet (Return data) = Return w
    /\ forall a v, w !! a = Some v <-> last_positive a v data.
Proof.
  intros Hnum. destruct (collect_balances_returns data Hnum ∅) as [w Hw].
  exists w. split; [exact Hw|]. intros a v.
  rewrite (collect_balances_spec data ∅ w Hw a v), lookup_empty.
  split; [intros [H|[_ H]]; [exact H|discriminate]|now left].
Qed.



Lemma load_exchange_info_keeps_unlisted_symbols_witness :
  format_number
    (fst (load_exchange_info (Return relisted_symbols) lot_size_filters))
    "ETHUSDT" (mkDec false 12345 (-4)) "LOT_SIZE"
  = format_number lot_size_filters "ETHUSDT" (mkDec false 12345 (-4))
      "LOT_SIZE".
Proof.
  apply (load_exchange_info_keeps_unlisted_symbols (Return relisted_symbols)
           lot_size_filters "ETHUSDT" "LOT_SIZE" (mkDec false 12345 (-4))).
  intros data [= <-]. cbn. intros [H|[H|[]]]; discriminate.
Defined.

Lemma load_exchange_info_last_listing_wins_witness :
  known_step
    (fst (load_exchange_info
            (Return
               ([mkSymbolData "BTCUSDT"
                   [("PRICE_FILTER"%string,
                     mkFilter None (Some (mkDec false 1 (-2))))]]
                ++ mkSymbolData "BTCUSDT"
                     [("LOT_SIZE"%string,
                       mkFilter (Some (mkDec false 1 (-3))) None);
                      ("LOT_SIZE"%string,
                       mkFilter (Some (mkDec false 100000 (-8))) None)]
                   :: []))
            zero_tick_filters))
    "BTCUSDT" "LOT_SIZE"
  = step_of (mkFilter (Some (mkDec false 100000 (-8))) None).
Proof.
  apply (load_exchange_info_last_listing_wins
           [mkSymbolData "BTCUSDT"
              [("PRICE_FILTER"%string,
                mkFilter None (Some (mkDec false 1 (-2))))]]
           []
           (mkSymbolData "BTCUSDT"
              [("LOT_SIZE"%string, mkFilter (Some (mkDec false 1 (-3))) None);
               ("LOT_SIZE"%string,
                mkFilter (Some (mkDec false 100000 (-8))) None)])
           [("LOT_SIZE"%string, mkFilter (Some (mkDec false 1 (-3))) None)]
           []
           "LOT_SIZE"
           (mkFilter (Some (mkDec false 100000 (-8))) None)
           zero_tick_filters).
  - cbn. tauto.
  - reflexivity.
  - cbn. tauto.
Defined.

Lemma load_exchange_info_forgets_dropped_filters_witness :
  format_number
    (fst (load_exchange_info
            (Return
               ([mkSymbolData "BTCUSDT"
                   [("PRICE_FILTER"%string,
                     mkFilter None (Some (mkDec false 1 (-2))))]]
                ++ mkSymbolData "BTCUSDT"
                     [("LOT_SIZE"%string,
                       mkFilter (Some (mkDec false 1 (-3))) None);
                      ("LOT_SIZE"%string,
                       mkFilter (Some (mkDec false 100000 (-8))) None)]
                   :: []))
            zero_tick_filters))
    "BTCUSDT" (mkDec false 12345 (-1)) "PRICE_FILTER"
  = Return (format_f (mkDec false 12345 (-1))).
Proof.
  apply (load_exchange_info_forgets_dropped_filters
           [mkSymbolData "BTCUSDT"
              [("PRICE_FILTER"%string,
                mkFilter None (Some (mkDec false 1 (-2))))]]
           []
           (mkSymbolData "BTCUSDT"
              [("LOT_SIZE"%string, mkFilter (Some (mkDec false 1 (-3))) None);
               ("LOT_SIZE"%string,
                mkFilter (Some (mkDec false 100000 (-8))) None)])
           "PRICE_FILTER" (mkDec false 12345 (-1)) zero_tick_filters).
  - cbn. tauto.
  - cbn. intros [H|[H|[]]]; discriminate.
Defined.

Lemma get_wallet_holds_last_positive_amounts_witness :
  exists w,
    get_wallet (Return account_balances) = Return w
    /\ forall a v, w !! a = Some v <-> last_positive a v account_balances.
Proof.
  apply (get_wallet_holds_last_positive_amounts account_balances).
  repeat constructor; discriminate.
Defined.

End ClientFacts.

(** * The comparisons of the scenarios in binary64

    The engine above computes on exact rationals.  The comparisons that the
    scenarios of this file go through come out the same on IEEE 754 doubles,
    the numbers Python computes with. *)

Module Binary64.
Import PrimFloat.
Local Open Scope float_scope.
Set Warnings "-inexact-float".

Example profit_at_104_8_activates :
  leb 0.03 ((104.8 - 100) / 100) = true
  /\ leb ((104.8 - 100) / 100) (- 0.05) = false.
Proof. split; reflexivity. Qed.

Example drawdown_from_106_triggers :
  leb 0.01 ((106 - 104.8) / 106) = true.
Proof. reflexivity. Qed.

Example loss_at_94_triggers_dca :
  leb ((94 - 100) / 100) (- 0.05) = true
  /\ leb ((96 - 100) / 100) (- 0.05) = false.
Proof. split; reflexivity. Qed.

Example weighted_average_of_three_lots :
  eqb ((0 + 100 * 1 + 90 * 1 + 80 * 2) / (0 + 1 + 1 + 2)) 87.5 = true.
Proof. reflexivity. Qed.

Example notional_of_an_entry_at_104_8 :
  ltb (15 / 104.8 * 104.8) 10 = false
  /\ ltb (0.05 * 100) 10 = true.
Proof. split; reflexivity. Qed.

End Binary64.
